(** * Collaborative canvas: session synchronisation core

    A shallow embedding of the server modules (rooms.js, drawing-state.js,
    server.js) and of the client engines (canvas.js, websocket.js and the
    glue of main.js), followed by the properties of the specification.

    Conventions.
    - A JavaScript [Map] is insertion ordered and key unique: it is an
      association list with the update discipline of [Map.prototype.set].
    - JSON numbers that the code only stores and forwards stand as [Z].
    - [Date.now()] is an input: functions that read the clock take the
      reading as an argument. *)

From stdpp Require Import base list strings.
From Stdlib Require Import ZArith Lia Ascii HexadecimalString Sorted.

(** ** JavaScript [Map] *)

Module JsMap.
Section JsMap.
Context {K V : Type} `{EqDecision K}.

(** [m.set(k, v)]: overwrite in place, or append a fresh entry. *)
Fixpoint jsmap_set (k : K) (v : V) (m : list (K * V)) : list (K * V) :=
  match m with
  | [] => [(k, v)]
  | (k', v') :: m' =>
      if decide (k' = k) then (k, v) :: m' else (k', v') :: jsmap_set k v m'
  end.

(** [m.delete(k)] *)
Fixpoint jsmap_delete (k : K) (m : list (K * V)) : list (K * V) :=
  match m with
  | [] => []
  | (k', v') :: m' =>
      if decide (k' = k) then jsmap_delete k m' else (k', v') :: jsmap_delete k m'
  end.

(** [m.get(k)], [None] for [undefined] *)
Fixpoint jsmap_get (k : K) (m : list (K * V)) : option V :=
  match m with
  | [] => None
  | (k', v') :: m' => if decide (k' = k) then Some v' else jsmap_get k m'
  end.

(** [m.has(k)] *)
Definition jsmap_has (k : K) (m : list (K * V)) : bool :=
  match jsmap_get k m with Some _ => true | None => false end.

(** [Array.from(m.values())] and the keys in the same order *)
Definition jsmap_values (m : list (K * V)) : list V := map snd m.
Definition jsmap_keys (m : list (K * V)) : list K := map fst m.
End JsMap.
End JsMap.
Export JsMap.

(** ** rooms.js *)

Module Rooms.

(** One drawing operation as it travels in a [drawing] message. *)
Record Operation := mkOperation {
  op_type : string;       (* 'start' | 'draw' | 'end' | 'clear' *)
  op_x : Z;
  op_y : Z;
  op_tool : string;       (* 'brush' | 'eraser' *)
  op_color : string;
  op_width : Z;
  op_timestamp : Z
}.

(** [{ ...op, timestamp: t }] *)
Definition stamp (t : Z) (op : Operation) : Operation :=
  mkOperation (op_type op) (op_x op) (op_y op) (op_tool op) (op_color op)
              (op_width op) t.

Record UserData := mkUserData {
  ud_userId : string;
  ud_userName : string;
  ud_userColor : string;
  ud_joinedAt : Z
}.

Record Room := mkRoom {
  roomId : string;
  users : list (string * UserData);
  drawingHistory : list Operation;
  maxHistorySize : nat;
  createdAt : Z
}.

(** [new Room(roomId)], created at clock reading [now] *)
Definition new_Room (id : string) (now : Z) : Room :=
  mkRoom id [] [] 1000 now.

Definition set_users (u : list (string * UserData)) (r : Room) : Room :=
  mkRoom (roomId r) u (drawingHistory r) (maxHistorySize r) (createdAt r).

Definition set_drawingHistory (h : list Operation) (r : Room) : Room :=
  mkRoom (roomId r) (users r) h (maxHistorySize r) (createdAt r).

Definition addUser (userId : string) (userData : UserData) (r : Room) : Room :=
  set_users (jsmap_set userId userData (users r)) r.

Definition removeUser (userId : string) (r : Room) : Room :=
  set_users (jsmap_delete userId (users r)) r.

Definition getUsers (r : Room) : list UserData := jsmap_values (users r).

(** [arr.slice(-n)]: the last [n] elements; [slice(-0)] is [slice(0)]. *)
Definition slice_from_end {A} (n : nat) (l : list A) : list A :=
  match n with
  | O => l
  | _ => drop (length l - n) l
  end.

(** The [forEach] of [addDrawingOperation]: the [i]-th callback reads the
    clock as [now i] and pushes the stamped copy. *)
Fixpoint forEach_push (now : nat -> Z) (i : nat) (operations h : list Operation)
  : list Operation :=
  match operations with
  | [] => h
  | op :: rest => forEach_push now (S i) rest (h ++ [stamp (now i) op])
  end.

Definition addDrawingOperation (now : nat -> Z) (operations : list Operation)
    (r : Room) : Room :=
  let pushed := forEach_push now 0 operations (drawingHistory r) in
  if decide (maxHistorySize r < length pushed)%nat
  then set_drawingHistory (slice_from_end (maxHistorySize r) pushed) r
  else set_drawingHistory pushed r.

Definition getDrawingHistory (r : Room) : list Operation := drawingHistory r.

Definition clearHistory (r : Room) : Room := set_drawingHistory [] r.

(** The global registry [rooms] and [getOrCreateRoom]: the registry after
    the call, paired with the room it returns. *)
Definition getOrCreateRoom (id : string) (now : Z) (rooms : list (string * Room))
  : list (string * Room) * Room :=
  match jsmap_get id rooms with
  | Some r => (rooms, r)
  | None => let r := new_Room id now in (jsmap_set id r rooms, r)
  end.

Definition deleteRoom (id : string) (rooms : list (string * Room))
  : list (string * Room) := jsmap_delete id rooms.

(** A run of [addDrawingOperation] calls, each with its own clock. *)
Definition appendAll (calls : list ((nat -> Z) * list Operation)) (r : Room) : Room :=
  foldl (fun r c => addDrawingOperation (fst c) (snd c) r) r calls.

(** What one call writes: its operations, stamped in order. *)
Definition stamped (now : nat -> Z) (operations : list Operation) : list Operation :=
  imap (fun i op => stamp (now i) op) operations.

(** Everything a run of calls has written, in receipt order. *)
Definition received (calls : list ((nat -> Z) * list Operation)) : list Operation :=
  concat (map (fun c => stamped (fst c) (snd c)) calls).

End Rooms.
Export Rooms.

(** ** Messages *)

Module Messages.

(** Client to server, after [JSON.parse], with the field types of the
    protocol table.  The [userId] a client puts in [drawing] and
    [cursor_move] is not a field here: the server never reads it. *)
Inductive ClientMessage :=
| user_join (userId userName userColor : string)
| drawing (operations : option (list Operation)) (timestamp : Z)
    (* [None]: the [operations] field is missing or not an array *)
| cursor_move (x y timestamp : Z)
| ping
| canvas_sync
| unknown_type.

(** Server to client, before [JSON.stringify]. *)
Inductive ServerMessage :=
| user_list (users : list UserData)
| drawing_history (operations : list Operation)
| sync_complete (historySize : nat)
| sync_complete_canvas (history : list Operation) (timestamp : Z)
| user_joined (userId userName userColor : string)
| user_left (userId userName : string)
| drawing_bcast (userId : string) (operations : list Operation) (timestamp : Z)
| cursor_move_bcast (userId : string) (x y timestamp : Z)
| pong.

End Messages.
Export Messages.

(** ** drawing-state.js *)

Module DrawingState.

(** A socket of [wss.clients].  A socket object is referred to by its
    position in [wss.clients]. *)
Record Client := mkClient {
  readyState : nat;           (* 0 CONNECTING, 1 OPEN, 2 CLOSING, 3 CLOSED *)
  ws_userId : option string   (* the property [ws.userId]; [None]: undefined *)
}.

(** An entry of [userConnections]. *)
Record ConnectionData := mkConnectionData {
  cd_ws : nat;
  cd_userId : string;
  cd_userData : UserData;
  cd_roomId : string
}.

Definition addUserConnection (userId : string) (connectionData : ConnectionData)
    (userConnections : list (string * ConnectionData)) :=
  jsmap_set userId connectionData userConnections.

Definition removeUserConnection (userId : string)
    (userConnections : list (string * ConnectionData)) :=
  jsmap_delete userId userConnections.

Definition getUserConnection (userId : string)
    (userConnections : list (string * ConnectionData)) :=
  jsmap_get userId userConnections.

(** [userConnections.get(client.userId)] *)
Definition connection_of (client : Client)
    (userConnections : list (string * ConnectionData)) : option ConnectionData :=
  match ws_userId client with
  | Some u => jsmap_get u userConnections
  | None => None
  end.

(** The loop of [getRoomClients] over [wss.clients] from position [i]. *)
Fixpoint getRoomClients_from (i : nat) (roomId : string) (clients : list Client)
    (userConnections : list (string * ConnectionData)) : list (nat * Client) :=
  match clients with
  | [] => []
  | client :: rest =>
      let tail := getRoomClients_from (S i) roomId rest userConnections in
      match connection_of client userConnections with
      | Some userData =>
          if decide (cd_roomId userData = roomId /\ readyState client = 1%nat)
          then (i, client) :: tail else tail
      | None => tail
      end
  end.

Definition getRoomClients (roomId : string) (wss : list Client)
    (userConnections : list (string * ConnectionData)) : list (nat * Client) :=
  getRoomClients_from 0 roomId wss userConnections.

(** [excludeUserId === null || client.userId !== excludeUserId] *)
Definition not_excluded (excludeUserId : option string) (client : Client) : bool :=
  match excludeUserId with
  | None => true
  | Some x => bool_decide (ws_userId client <> Some x)
  end.

(** [broadcastToRoom]: the [send] calls it makes, in order, each as the
    receiving socket and the message. *)
Definition broadcastToRoom (roomId : string) (message : ServerMessage)
    (wss : list Client) (excludeUserId : option string)
    (userConnections : list (string * ConnectionData))
  : list (nat * ServerMessage) :=
  let clients := getRoomClients roomId wss userConnections in
  flat_map (fun ic : nat * Client =>
              if not_excluded excludeUserId (snd ic)
              then if decide (readyState (snd ic) = 1%nat)
                   then [(fst ic, message)] else []
              else [])
           clients.

End DrawingState.
Export DrawingState.

(** ** server.js *)

Module Server.

(** One connection: its socket and the variables of the closure that
    [wss.on('connection', ...)] creates for it. *)
Record Connection := mkConnection {
  sock : Client;
  cl_roomId : string;
  cl_userId : option string;      (* [None]: null *)
  cl_userData : option UserData   (* [None]: null *)
}.

(** The server: the two module-level registries, the connections in the
    order of [wss.clients], and every [send] call made so far, oldest
    first.  A closed socket keeps its position, with [readyState] 3. *)
Record State := mkState {
  rooms : list (string * Room);
  userConnections : list (string * ConnectionData);
  conns : list Connection;
  sent : list (nat * ServerMessage)
}.

Definition init : State := mkState [] [] [] [].

Definition wss (st : State) : list Client := sock <$> conns st.

(** [if (userId)]: null and the empty string are falsy. *)
Definition truthy (userId : option string) : bool :=
  match userId with
  | Some u => bool_decide (u <> ""%string)
  | None => false
  end.

Definition set_rooms (r : list (string * Room)) (st : State) : State :=
  mkState r (userConnections st) (conns st) (sent st).
Definition set_userConnections (u : list (string * ConnectionData)) (st : State) : State :=
  mkState (rooms st) u (conns st) (sent st).
Definition set_conns (c : list Connection) (st : State) : State :=
  mkState (rooms st) (userConnections st) c (sent st).

(** [ws.send(JSON.stringify(message))] on socket [i] *)
Definition ws_send (i : nat) (message : ServerMessage) (st : State) : State :=
  mkState (rooms st) (userConnections st) (conns st) (sent st ++ [(i, message)]).

(** [broadcastToRoom(roomId, message, wss, excludeUserId)] *)
Definition broadcast (roomId : string) (message : ServerMessage)
    (excludeUserId : option string) (st : State) : State :=
  mkState (rooms st) (userConnections st) (conns st)
          (sent st ++ broadcastToRoom roomId message (wss st) excludeUserId
                                      (userConnections st)).

(** [getOrCreateRoom(room)] followed by a method that mutates the room
    object; the object lives in the registry. *)
Definition with_room (room : string) (now : Z) (f : Room -> Room) (st : State)
  : State * Room :=
  let '(rooms1, room0) := getOrCreateRoom room now (rooms st) in
  let room_ := f room0 in
  (set_rooms (jsmap_set room room_ rooms1) st, room_).

Definition handleUserJoin (i : nat) (userId userName userColor : string)
    (now : Z) (st : State) : State :=
  match conns st !! i with
  | None => st
  | Some c =>
      let room := cl_roomId c in
      let userData := mkUserData userId userName userColor now in
      let '(st1, room_) := with_room room now (addUser userId userData) st in
      let st2 := set_userConnections
                   (addUserConnection userId
                      (mkConnectionData i userId userData room)
                      (userConnections st1)) st1 in
      let st3 := set_conns
                   (<[i := mkConnection (mkClient (readyState (sock c)) (Some userId))
                                        room (Some userId) (Some userData)]>
                      (conns st2)) st2 in
      let st4 := ws_send i (user_list (getUsers room_)) st3 in
      let drawingHistory := getDrawingHistory room_ in
      let st5 := if decide (0 < length drawingHistory)%nat
                 then ws_send i (drawing_history drawingHistory) st4
                 else st4 in
      let st6 := ws_send i (sync_complete (length drawingHistory)) st5 in
      broadcast room (user_joined userId userName userColor) (Some userId) st6
  end.

Definition handleDrawing (i : nat) (operations : option (list Operation))
    (timestamp : Z) (now : Z) (stamps : nat -> Z) (st : State) : State :=
  match conns st !! i with
  | None => st
  | Some c =>
      match cl_userId c with
      | Some userId =>
          if truthy (Some userId) then
            let room := cl_roomId c in
            match operations with
            | Some ops =>
                let '(st1, _) :=
                  with_room room now (addDrawingOperation stamps ops) st in
                broadcast room (drawing_bcast userId ops timestamp) (Some userId) st1
            | None => fst (with_room room now (fun r => r) st)
            end
          else st
      | None => st
      end
  end.

Definition handleCursorMove (i : nat) (x y timestamp : Z) (st : State) : State :=
  match conns st !! i with
  | None => st
  | Some c =>
      match cl_userId c with
      | Some userId =>
          if truthy (Some userId)
          then broadcast (cl_roomId c) (cursor_move_bcast userId x y timestamp)
                         (Some userId) st
          else st
      | None => st
      end
  end.

Definition handlePing (i : nat) (st : State) : State := ws_send i pong st.

Definition handleCanvasSync (i : nat) (now : Z) (st : State) : State :=
  match conns st !! i with
  | None => st
  | Some c =>
      let '(st1, room_) := with_room (cl_roomId c) now (fun r => r) st in
      ws_send i (sync_complete_canvas (getDrawingHistory room_) now) st1
  end.

(** The [switch] of [ws.on('message', ...)]. *)
Definition on_message (i : nat) (message : ClientMessage) (now : Z)
    (stamps : nat -> Z) (st : State) : State :=
  match message with
  | user_join userId userName userColor =>
      handleUserJoin i userId userName userColor now st
  | drawing operations timestamp =>
      handleDrawing i operations timestamp now stamps st
  | cursor_move x y timestamp => handleCursorMove i x y timestamp st
  | ping => handlePing i st
  | canvas_sync => handleCanvasSync i now st
  | unknown_type => st
  end.

(** [userData?.userName || 'Unknown'] *)
Definition userName_or_Unknown (userData : option UserData) : string :=
  match userData with
  | Some d => if decide (ud_userName d = ""%string) then "Unknown"%string
              else ud_userName d
  | None => "Unknown"%string
  end.

(** [ws.on('close', ...)]: runs once the socket is closed. *)
Definition on_close (i : nat) (now : Z) (st : State) : State :=
  match conns st !! i with
  | None => st
  | Some c =>
      match cl_userId c with
      | Some userId =>
          if truthy (Some userId) then
            let '(st1, _) := with_room (cl_roomId c) now (removeUser userId) st in
            let st2 := broadcast (cl_roomId c)
                         (user_left userId (userName_or_Unknown (cl_userData c)))
                         None st1 in
            set_userConnections
              (removeUserConnection userId (userConnections st2)) st2
          else st
      | None => st
      end
  end.

(** [wss.on('connection', ...)]: a new open socket with a fresh closure. *)
Definition on_connection (st : State) : State :=
  set_conns (conns st ++ [mkConnection (mkClient 1 None) "default" None None]) st.

(** The transport closes socket [i]. *)
Definition close_socket (i : nat) (st : State) : State :=
  set_conns (alter (fun c => mkConnection (mkClient 3 (ws_userId (sock c)))
                                         (cl_roomId c) (cl_userId c) (cl_userData c))
                   i (conns st)) st.

Definition is_open (i : nat) (st : State) : bool :=
  match conns st !! i with
  | Some c => bool_decide (readyState (sock c) = 1%nat)
  | None => false
  end.

(** What the ws library delivers: messages on open sockets only, and one
    close per socket. *)
Inductive Event :=
| Connect
| Message (i : nat) (message : ClientMessage) (now : Z) (stamps : nat -> Z)
| Close (i : nat) (now : Z).

Definition deliver (e : Event) (st : State) : State :=
  match e with
  | Connect => on_connection st
  | Message i message now stamps =>
      if is_open i st then on_message i message now stamps st else st
  | Close i now =>
      if is_open i st then on_close i now (close_socket i st) else st
  end.

Definition run (es : list Event) (st : State) : State :=
  foldl (fun st e => deliver e st) st es.

(** The user ids a room holds, in join order. *)
Definition room_participants (room : string) (st : State) : list string :=
  match jsmap_get room (rooms st) with
  | Some r => jsmap_keys (users r)
  | None => []
  end.

(** The user ids of the open connections that joined a room. *)
Definition open_participants (room : string) (st : State) : list string :=
  omap (fun c => if decide (readyState (sock c) = 1%nat /\ cl_roomId c = room)
                 then cl_userId c else None)
       (conns st).

(** The operation log of a room; empty before the room exists. *)
Definition room_log (room : string) (st : State) : list Operation :=
  match jsmap_get room (rooms st) with
  | Some r => getDrawingHistory r
  | None => []
  end.

End Server.
Export Server.

(** ** websocket.js: the client connection manager *)

Module WsClient.

Record WebSocketManager := mkWebSocketManager {
  ws : option nat;            (* [this.ws]: [None] is null, else the socket's
                                 readyState (0 CONNECTING .. 3 CLOSED) *)
  userId : string;
  userName : string;
  userColor : string;
  isConnected : bool;
  reconnectAttempts : nat;
  maxReconnectAttempts : nat;
  reconnectDelay : Z;
  wsDrawingBuffer : list Operation;     (* [this.drawingBuffer] *)
  lastFlushTime : Z;
  flushInterval : Z;
  timers : list Z;            (* pending [setTimeout(() => this.connect(), d)] *)
  outbox : list ClientMessage (* what reached [this.ws.send], oldest first *)
}.

Definition set_ws (s : option nat) (m : WebSocketManager) :=
  mkWebSocketManager s (userId m) (userName m) (userColor m) (isConnected m)
    (reconnectAttempts m) (maxReconnectAttempts m) (reconnectDelay m)
    (wsDrawingBuffer m) (lastFlushTime m) (flushInterval m) (timers m) (outbox m).
Definition set_isConnected (b : bool) (m : WebSocketManager) :=
  mkWebSocketManager (ws m) (userId m) (userName m) (userColor m) b
    (reconnectAttempts m) (maxReconnectAttempts m) (reconnectDelay m)
    (wsDrawingBuffer m) (lastFlushTime m) (flushInterval m) (timers m) (outbox m).
Definition set_reconnectAttempts (n : nat) (m : WebSocketManager) :=
  mkWebSocketManager (ws m) (userId m) (userName m) (userColor m) (isConnected m)
    n (maxReconnectAttempts m) (reconnectDelay m)
    (wsDrawingBuffer m) (lastFlushTime m) (flushInterval m) (timers m) (outbox m).
Definition set_drawingBuffer (b : list Operation) (m : WebSocketManager) :=
  mkWebSocketManager (ws m) (userId m) (userName m) (userColor m) (isConnected m)
    (reconnectAttempts m) (maxReconnectAttempts m) (reconnectDelay m)
    b (lastFlushTime m) (flushInterval m) (timers m) (outbox m).
Definition set_lastFlushTime (t : Z) (m : WebSocketManager) :=
  mkWebSocketManager (ws m) (userId m) (userName m) (userColor m) (isConnected m)
    (reconnectAttempts m) (maxReconnectAttempts m) (reconnectDelay m)
    (wsDrawingBuffer m) t (flushInterval m) (timers m) (outbox m).
Definition set_timers (t : list Z) (m : WebSocketManager) :=
  mkWebSocketManager (ws m) (userId m) (userName m) (userColor m) (isConnected m)
    (reconnectAttempts m) (maxReconnectAttempts m) (reconnectDelay m)
    (wsDrawingBuffer m) (lastFlushTime m) (flushInterval m) t (outbox m).
Definition set_outbox (o : list ClientMessage) (m : WebSocketManager) :=
  mkWebSocketManager (ws m) (userId m) (userName m) (userColor m) (isConnected m)
    (reconnectAttempts m) (maxReconnectAttempts m) (reconnectDelay m)
    (wsDrawingBuffer m) (lastFlushTime m) (flushInterval m) (timers m) o.

(** [connect()]: a new socket, CONNECTING. *)
Definition connect (m : WebSocketManager) : WebSocketManager := set_ws (Some 0%nat) m.

(** The constructor, with the generated identity and the clock reading
    that initialises [lastFlushTime]. *)
Definition new_WebSocketManager (uid name color : string) (now : Z) : WebSocketManager :=
  connect (mkWebSocketManager None uid name color false 0 5 3000 [] now 50 [] []).

(** [send(message)]: dropped unless connected and the socket is OPEN. *)
Definition send (message : ClientMessage) (m : WebSocketManager) : WebSocketManager :=
  if isConnected m && bool_decide (ws m = Some 1%nat)
  then set_outbox (outbox m ++ [message]) m
  else m.

Definition handleOpen (m : WebSocketManager) : WebSocketManager :=
  let m1 := set_isConnected true m in
  let m2 := set_reconnectAttempts 0 m1 in
  send (user_join (userId m2) (userName m2) (userColor m2)) m2.

Definition attemptReconnect (m : WebSocketManager) : WebSocketManager :=
  if decide (reconnectAttempts m < maxReconnectAttempts m)%nat
  then
    let m1 := set_reconnectAttempts (S (reconnectAttempts m)) m in
    set_timers (timers m1 ++ [reconnectDelay m1]) m1
  else m.

Definition handleClose (m : WebSocketManager) : WebSocketManager :=
  attemptReconnect (set_isConnected false m).

Definition flushDrawingBuffer (now : Z) (m : WebSocketManager) : WebSocketManager :=
  match wsDrawingBuffer m with
  | [] => m
  | ops =>
      let m1 := send (drawing (Some ops) now) m in
      let m2 := set_drawingBuffer [] m1 in
      set_lastFlushTime now m2
  end.

Definition sendDrawing (now : Z) (operation : Operation) (m : WebSocketManager)
  : WebSocketManager :=
  let m1 := set_drawingBuffer (wsDrawingBuffer m ++ [operation]) m in
  if decide (now - lastFlushTime m1 > flushInterval m1)%Z
  then flushDrawingBuffer now m1
  else m1.

Definition sendCursorMove (now : Z) (x y : Z) (m : WebSocketManager) : WebSocketManager :=
  send (cursor_move x y now) m.

(** What the browser can do to the manager: the current socket opens or
    closes, or a pending reconnect timer fires.  [None]: the event cannot
    happen in that state. *)
Inductive SocketEvent := SocketOpen | SocketClose | TimerFire.

Global Instance SocketEvent_eq_dec : EqDecision SocketEvent.
Proof. solve_decision. Defined.

Definition step (e : SocketEvent) (m : WebSocketManager) : option WebSocketManager :=
  match e with
  | SocketOpen =>
      match ws m with
      | Some 0%nat => Some (handleOpen (set_ws (Some 1%nat) m))
      | _ => None
      end
  | SocketClose =>
      match ws m with
      | Some 0%nat | Some 1%nat | Some 2%nat => Some (handleClose (set_ws (Some 3%nat) m))
      | _ => None
      end
  | TimerFire =>
      match timers m with
      | _ :: rest => Some (connect (set_timers rest m))
      | [] => None
      end
  end.

Fixpoint steps (es : list SocketEvent) (m : WebSocketManager) : option WebSocketManager :=
  match es with
  | [] => Some m
  | e :: rest => match step e m with Some m' => steps rest m' | None => None end
  end.

(** Joined: the socket is OPEN and [handleOpen] has run. *)
Definition Joined (m : WebSocketManager) : Prop :=
  ws m = Some 1%nat /\ isConnected m = true.

End WsClient.
Export WsClient.

(** ** canvas.js and the glue of main.js *)

Module Canvas.

(** The pixels of a surface or of a snapshot: its RGBA bytes. *)
Definition ImageData := list Z.

Record CanvasDrawing := mkCanvasDrawing {
  surface : ImageData;          (* what [this.ctx] currently shows *)
  isDrawing : bool;
  currentTool : string;
  currentColor : string;
  strokeWidth : Z;
  history : list ImageData;
  historyStep : Z;
  maxHistorySteps : nat;
  drawingBuffer : list Operation;
  lastSyncTime : Z;
  batchInterval : Z
}.

Definition set_surface (s : ImageData) (c : CanvasDrawing) :=
  mkCanvasDrawing s (isDrawing c) (currentTool c) (currentColor c) (strokeWidth c)
    (history c) (historyStep c) (maxHistorySteps c) (drawingBuffer c)
    (lastSyncTime c) (batchInterval c).
Definition set_isDrawing (b : bool) (c : CanvasDrawing) :=
  mkCanvasDrawing (surface c) b (currentTool c) (currentColor c) (strokeWidth c)
    (history c) (historyStep c) (maxHistorySteps c) (drawingBuffer c)
    (lastSyncTime c) (batchInterval c).
Definition set_history (h : list ImageData) (c : CanvasDrawing) :=
  mkCanvasDrawing (surface c) (isDrawing c) (currentTool c) (currentColor c)
    (strokeWidth c) h (historyStep c) (maxHistorySteps c) (drawingBuffer c)
    (lastSyncTime c) (batchInterval c).
Definition set_historyStep (n : Z) (c : CanvasDrawing) :=
  mkCanvasDrawing (surface c) (isDrawing c) (currentTool c) (currentColor c)
    (strokeWidth c) (history c) n (maxHistorySteps c) (drawingBuffer c)
    (lastSyncTime c) (batchInterval c).
Definition set_buffer (b : list Operation) (c : CanvasDrawing) :=
  mkCanvasDrawing (surface c) (isDrawing c) (currentTool c) (currentColor c)
    (strokeWidth c) (history c) (historyStep c) (maxHistorySteps c) b
    (lastSyncTime c) (batchInterval c).
Definition set_lastSyncTime (t : Z) (c : CanvasDrawing) :=
  mkCanvasDrawing (surface c) (isDrawing c) (currentTool c) (currentColor c)
    (strokeWidth c) (history c) (historyStep c) (maxHistorySteps c)
    (drawingBuffer c) t (batchInterval c).

(** [arr.slice(0, n)]: a negative [n] counts from the end. *)
Definition slice_to {A} (n : Z) (l : list A) : list A :=
  if decide (n < 0)%Z then take (Z.to_nat (Z.of_nat (length l) + n)) l
  else take (Z.to_nat n) l.

(** [arr[n]]: [None] for undefined. *)
Definition at_index {A} (n : Z) (l : list A) : option A :=
  if decide (n < 0)%Z then None else l !! Z.to_nat n.

(** [ctx.clearRect] over the whole surface: every byte becomes 0. *)
Definition clearRect_all (s : ImageData) : ImageData := map (fun _ => 0%Z) s.

Definition saveHistory (c : CanvasDrawing) : CanvasDrawing :=
  let c1 := set_history (slice_to (historyStep c + 1) (history c)) c in
  let imageData := surface c1 in
  let c2 := set_history (history c1 ++ [imageData]) c1 in
  if decide (maxHistorySteps c2 < length (history c2))%nat
  then set_history (tail (history c2)) c2
  else set_historyStep (historyStep c2 + 1) c2.

Definition redrawFromHistory (c : CanvasDrawing) : CanvasDrawing :=
  let c1 := set_surface (clearRect_all (surface c)) c in
  if decide (historyStep c1 >= 0)%Z
  then match at_index (historyStep c1) (history c1) with
       | Some snapshot => set_surface snapshot c1
       | None => c1
       end
  else c1.

Definition redo (c : CanvasDrawing) : CanvasDrawing :=
  if decide (historyStep c < Z.of_nat (length (history c)) - 1)%Z
  then redrawFromHistory (set_historyStep (historyStep c + 1) c)
  else c.

(** The members of class [CanvasDrawing] that take no argument and act on
    the history engine alone, by name: what [window.canvas[name]] finds.
    The class declares no other member of that kind; a name it does not
    declare reads as undefined. *)
Definition CanvasDrawing_member (name : string)
  : option (CanvasDrawing -> CanvasDrawing) :=
  if decide (name = "redo"%string) then Some redo
  else if decide (name = "saveHistory"%string) then Some saveHistory
  else if decide (name = "redrawFromHistory"%string) then Some redrawFromHistory
  else None.

(** main.js, the click handler of [undoBtn] and the Ctrl+Z branch of the
    keydown handler: [if (window.canvas && window.canvas.undo)
    window.canvas.undo()]. *)
Definition undoBtn_click (c : CanvasDrawing) : CanvasDrawing :=
  match CanvasDrawing_member "undo" with
  | Some undo => undo c
  | None => c
  end.

(** main.js, the click handler of [redoBtn] and the Ctrl+Shift+Z branch. *)
Definition redoBtn_click (c : CanvasDrawing) : CanvasDrawing :=
  match CanvasDrawing_member "redo" with
  | Some redo => redo c
  | None => c
  end.

(** The constructor on a blank surface; [now] initialises [lastSyncTime]. *)
Definition new_CanvasDrawing (blank : ImageData) (now : Z) : CanvasDrawing :=
  saveHistory (mkCanvasDrawing blank false "brush" "#000000" 3 [] 0 50 [] now 50).

(** The page: [window.canvas] and [window.wsManager]. *)
Record Page := mkPage {
  canvas : CanvasDrawing;
  wsManager : WebSocketManager
}.

(** main.js override of [emitDrawing]: hand every buffered operation to
    [wsManager.sendDrawing], then empty the canvas buffer. *)
Definition emitDrawing (now : Z) (p : Page) : Page :=
  match drawingBuffer (canvas p) with
  | [] => p
  | ops =>
      mkPage (set_buffer [] (canvas p))
             (foldl (fun m op => sendDrawing now op m) (wsManager p) ops)
  end.

(** main.js override of [emitMouseMove]. *)
Definition emitMouseMove (now : Z) (x y : Z) (p : Page) : Page :=
  mkPage (canvas p) (sendCursorMove now x y (wsManager p)).

(** The operation a pointer event buffers. *)
Definition local_op (type : string) (x y now : Z) (c : CanvasDrawing) : Operation :=
  mkOperation type x y (currentTool c) (currentColor c) (strokeWidth c) now.

Section Rendering.
(** [drawLine]: the rasterisation of one segment, a primitive of the
  drawing surface. *)
Variable drawLine : Z -> Z -> CanvasDrawing -> ImageData.

Definition startDrawing (now : Z) (eyedropperActive : bool) (x y : Z) (p : Page)
  : Page :=
  if eyedropperActive then p
  else
    let c1 := set_isDrawing true (canvas p) in
    let c2 := set_buffer (drawingBuffer c1 ++ [local_op "start" x y now c1]) c1 in
    emitMouseMove now x y (mkPage c2 (wsManager p)).

Definition draw (now : Z) (x y : Z) (p : Page) : Page :=
  if isDrawing (canvas p) then
    let c1 := set_surface (drawLine x y (canvas p)) (canvas p) in
    let c2 := set_buffer (drawingBuffer c1 ++ [local_op "draw" x y now c1]) c1 in
    let p1 := mkPage c2 (wsManager p) in
    let p2 := if decide (now - lastSyncTime c2 > batchInterval c2)%Z
              then let p' := emitDrawing now p1 in
                   mkPage (set_lastSyncTime now (canvas p')) (wsManager p')
              else p1 in
    emitMouseMove now x y p2
  else p.
End Rendering.

Definition stopDrawing (now : Z) (p : Page) : Page :=
  if isDrawing (canvas p) then
    let p1 := mkPage (set_isDrawing false (canvas p)) (wsManager p) in
    let p2 := match drawingBuffer (canvas p1) with
              | [] => p1
              | _ => let p' := emitDrawing now p1 in
                     mkPage (set_lastSyncTime now (canvas p')) (wsManager p')
              end in
    mkPage (saveHistory (set_buffer [] (canvas p2))) (wsManager p2)
  else p.



(** Pointer events on the canvas, each with the clock reading of its
    handler. *)
Inductive PointerEvent :=
| MouseDown (now x y : Z)
| MouseMove (now x y : Z)
| MouseUp (now : Z).

Definition on_pointer (drawLine : Z -> Z -> CanvasDrawing -> ImageData)
    (e : PointerEvent) (p : Page) : Page :=
  match e with
  | MouseDown now x y => startDrawing now false x y p
  | MouseMove now x y => draw drawLine now x y p
  | MouseUp now => stopDrawing now p
  end.

(** The [drawing] messages among what was transmitted. *)
Definition is_drawing (m : ClientMessage) : bool :=
  match m with drawing _ _ => true | _ => false end.

Definition drawing_messages (m : WebSocketManager) : list ClientMessage :=
  List.filter is_drawing (outbox m).

(** The operations of the history engine. *)
Inductive HistoryCall := Commit (s : ImageData) | UndoClick | RedoClick.

(** [Commit s]: a stroke or a clear has left the surface as [s], and
    [saveHistory] runs. *)
Definition history_call (k : HistoryCall) (c : CanvasDrawing) : CanvasDrawing :=
  match k with
  | Commit s => saveHistory (set_surface s c)
  | UndoClick => undoBtn_click c
  | RedoClick => redoBtn_click c
  end.

End Canvas.
Export Canvas.

(** ** Specification vocabulary and scenarios *)

Module Vocabulary.

(** The condition under which [broadcastToRoom] sends to a socket. *)
Definition receives (roomId : string) (excludeUserId : option string)
    (userConnections : list (string * ConnectionData)) (c : Client) : Prop :=
  readyState c = 1%nat /\
  (exists d, connection_of c userConnections = Some d /\ cd_roomId d = roomId) /\
  (forall x, excludeUserId = Some x -> ws_userId c <> Some x).

(** The room a handler works on: the registered one, or a fresh one. *)
Definition room_or_new (room : string) (now : Z) (st : State) : Room :=
  match jsmap_get room (rooms st) with
  | Some r => r
  | None => new_Room room now
  end.

(** Every room of the registry keeps the cap of its constructor. *)
Definition rooms_capped (st : State) : Prop :=
  Forall (fun kr : string * Room => maxHistorySize (snd kr) = 1000%nat) (rooms st).

(** Surface bounds [0..w] by [0..h]. *)
Definition within_bounds (w h : Z) (op : Operation) : Prop :=
  (0 <= op_x op <= w)%Z /\ (0 <= op_y op <= h)%Z.

(** A clock for handlers that stamp nothing. *)
Definition no_stamps : nat -> Z := fun _ => 0%Z.

(** The [user_join] of user [a], and of user [b], arriving on socket [i]. *)
Definition join_a (i : nat) : Event :=
  Message i (user_join "a" "User-a" "#FF6B6B") 5 no_stamps.
Definition join_b (i : nat) : Event :=
  Message i (user_join "b" "User-b" "#4ECDC4") 6 no_stamps.

(** Two sockets connected, [a] joined on socket 0. *)
Definition one_joined : State := run [Connect; Connect; join_a 0] init.
(** Two sockets connected, [a] joined on socket 0 and [b] on socket 1. *)
Definition two_joined : State := run [Connect; Connect; join_a 0; join_b 1] init.

(** A [draw] operation left of the surface. *)
Definition oob_op : Operation := mkOperation "draw" (-5) 7 "brush" "#000000" 3 0.

Definition three_registered : list (string * ConnectionData) :=
  [("a"%string, mkConnectionData 0 "a" (mkUserData "a" "User-a" "#FF6B6B" 5) "default");
   ("b"%string, mkConnectionData 1 "b" (mkUserData "b" "User-b" "#4ECDC4" 6) "default");
   ("c"%string, mkConnectionData 2 "c" (mkUserData "c" "User-c" "#45B7D1" 7) "default")].

(** A run of calls on the history engine. *)
Definition run_history (calls : list HistoryCall) (c : CanvasDrawing) : CanvasDrawing :=
  foldl (fun c k => history_call k c) c calls.

(** What holds of the engine from the constructor on. *)
Definition step_past_end (c : CanvasDrawing) : Prop :=
  maxHistorySteps c = 50%nat /\
  (1 <= length (history c) <= 50)%nat /\
  historyStep c = Z.of_nat (length (history c)).

(** A rendering that leaves the pixels alone: the batcher does not look
    at them. *)
Definition no_ink : Z -> Z -> CanvasDrawing -> ImageData := fun _ _ c => surface c.

(** A page whose manager, built at time 0, is joined. *)
Definition joined_manager : WebSocketManager :=
  handleOpen (set_ws (Some 1%nat) (new_WebSocketManager "u" "User-u" "#FF6B6B" 0)).
Definition joined_page : Page :=
  mkPage (new_CanvasDrawing [0; 0; 0; 0]%Z 0) joined_manager.

(** A run of pointer events on a page. *)
Definition run_pointer (es : list PointerEvent) (p : Page) : Page :=
  foldl (fun p e => on_pointer no_ink e p) p es.

(** Press at 1000 ms, move at 1010 ms and at 1020 ms. *)
Definition short_stroke : list PointerEvent :=
  [MouseDown 1000 5 5; MouseMove 1010 6 6; MouseMove 1020 7 7].

(** What holds of the manager from the constructor on. *)
Definition conn_inv (m : WebSocketManager) : Prop :=
  maxReconnectAttempts m = 5%nat /\
  reconnectDelay m = 3000%Z /\
  (reconnectAttempts m <= 5)%nat /\
  ((ws m = Some 0%nat /\ timers m = []) \/
   (ws m = Some 1%nat /\ timers m = [] /\ reconnectAttempts m = 0%nat /\
    isConnected m = true) \/
   (ws m = Some 3%nat /\ timers m = [3000%Z] /\ (1 <= reconnectAttempts m)%nat) \/
   (ws m = Some 3%nat /\ timers m = [] /\ reconnectAttempts m = 5%nat)).

(** Reconnect attempts still available: those the counter allows beyond
    the one already scheduled. *)
Definition attempts_left (m : WebSocketManager) : nat :=
  (5 - reconnectAttempts m + length (timers m))%nat.

(** The clock reading of a pointer event's handler. *)
Definition event_time (e : PointerEvent) : Z :=
  match e with
  | MouseDown now _ _ => now
  | MouseMove now _ _ => now
  | MouseUp now => now
  end.

(** Between [m] and [m'] either no [drawing] message left and the flush
    clock stands, or the flush interval had elapsed at [now] and the flush
    clock is [now]. *)
Definition throttled (now : Z) (m m' : WebSocketManager) : Prop :=
  flushInterval m' = flushInterval m /\
  ((drawing_messages m' = drawing_messages m /\ lastFlushTime m' = lastFlushTime m) \/
   ((now - lastFlushTime m > flushInterval m)%Z /\ lastFlushTime m' = now)).

End Vocabulary.
Export Vocabulary.

(** ** websocket.js: what the client keeps about the other users *)

Module ClientView.

(** An entry of [this.remoteUsers]. *)
Record RemoteUser := mkRemoteUser {
  ru_userId : string;
  ru_userName : string;
  ru_userColor : string;
  cursorX : Z;
  cursorY : Z
}.

(** The registry [this.remoteUsers] and the cursor elements of the page:
    for each element [cursor-<userId>] the coordinates last given to
    [updateCursor]. *)
Record View := mkView {
  remoteUsers : list (string * RemoteUser);
  cursorEls : list (string * (Z * Z))
}.

(** The [forEach] of [handleUserList]: every listed user but oneself. *)
Definition add_listed (self : string) (m : list (string * RemoteUser)) (user : UserData)
  : list (string * RemoteUser) :=
  if decide (ud_userId user <> self)
  then jsmap_set (ud_userId user)
         (mkRemoteUser (ud_userId user) (ud_userName user) (ud_userColor user) 0 0) m
  else m.

(** [handleUserList]; [None]: the message has no [users]. *)
Definition handleUserList (self : string) (users : option (list UserData)) (v : View)
  : View :=
  match users with
  | Some us => mkView (foldl (add_listed self) [] us) (cursorEls v)
  | None => mkView [] (cursorEls v)
  end.

Definition handleUserJoined (userId userName userColor : string) (v : View) : View :=
  mkView (jsmap_set userId (mkRemoteUser userId userName userColor 0 0) (remoteUsers v))
         (cursorEls v).

(** [handleUserLeft]: the registry entry and the cursor element go. *)
Definition handleUserLeft (userId : string) (v : View) : View :=
  mkView (jsmap_delete userId (remoteUsers v)) (jsmap_delete userId (cursorEls v)).

(** [handleCursorMove]: own and unknown users are ignored. *)
Definition handleCursorMove (self : string) (userId : string) (x y : Z) (v : View)
  : View :=
  if decide (userId = self) then v
  else match jsmap_get userId (remoteUsers v) with
       | Some user =>
           mkView (jsmap_set userId
                     (mkRemoteUser (ru_userId user) (ru_userName user)
                                   (ru_userColor user) x y)
                     (remoteUsers v))
                  (jsmap_set userId (x, y) (cursorEls v))
       | None => v
       end.

(** The part of [handleMessage] that touches the view. *)
Definition on_server_message (self : string) (message : ServerMessage) (v : View)
  : View :=
  match message with
  | user_list users => handleUserList self (Some users) v
  | user_joined userId userName userColor => handleUserJoined userId userName userColor v
  | user_left userId _ => handleUserLeft userId v
  | cursor_move_bcast userId x y _ => handleCursorMove self userId x y v
  | _ => v
  end.

End ClientView.

(** ** main.js: the colour picker *)

Module ColorPicker.

(** [[0-9a-f]] without regard to case. *)
Definition is_hex_digit (c : ascii) : bool :=
  let n := nat_of_ascii c in
  ((48 <=? n) && (n <=? 57)) || ((97 <=? n) && (n <=? 102))
  || ((65 <=? n) && (n <=? 70)).

(** The value [parseInt] gives a hexadecimal digit. *)
Definition hex_value (c : ascii) : nat :=
  let n := nat_of_ascii c in
  if (48 <=? n) && (n <=? 57) then n - 48
  else if (97 <=? n) && (n <=? 102) then n - 87
  else n - 55.

(** [toUpperCase] on the ASCII letters. *)
Definition upper_ascii (c : ascii) : ascii :=
  let n := nat_of_ascii c in
  if (97 <=? n) && (n <=? 122) then ascii_of_nat (n - 32) else c.

Fixpoint toUpperCase (s : string) : string :=
  match s with
  | EmptyString => EmptyString
  | String c rest => String (upper_ascii c) (toUpperCase rest)
  end.

(** [x.toString(16)] for a non-negative integer. *)
Definition toString16 (x : nat) : string :=
  NilZero.string_of_uint (Nat.to_hex_uint x).

(** The callback of [rgbToHex]: one leading zero for a single digit. *)
Definition pad_hex (x : nat) : string :=
  let hex := toString16 x in
  if decide (String.length hex = 1%nat) then ("0" +:+ hex)%string else hex.

Definition rgbToHex (r g b : nat) : string :=
  ("#" +:+ toUpperCase (pad_hex r +:+ pad_hex g +:+ pad_hex b))%string.

(** [hexToRgb]: an optional [#] and exactly six hexadecimal digits, or
    [None] for null. *)
Definition hexToRgb (hex : string) : option (nat * nat * nat) :=
  let body := match hex with
              | String "#"%char rest => rest
              | _ => hex
              end in
  match body with
  | String a (String b (String c (String d (String e (String f EmptyString))))) =>
      if forallb is_hex_digit [a; b; c; d; e; f]
      then Some (16 * hex_value a + hex_value b,
                 16 * hex_value c + hex_value d,
                 16 * hex_value e + hex_value f)%nat
      else None
  | _ => None
  end.

(** The test of [setColor] and of the hex input: [/^#[0-9A-F]{6}$/i]. *)
Definition valid_hex (hex : string) : bool :=
  match hex with
  | String "#"%char
      (String a (String b (String c (String d (String e (String f EmptyString)))))) =>
      forallb is_hex_digit [a; b; c; d; e; f]
  | _ => false
  end.

Record Picker := mkPicker {
  cp_currentColor : string;
  cp_colorHistory : list string;
  cp_maxHistorySize : nat;
  cp_isEyedropperActive : bool
}.

(** The constructor, with the history that [loadColorHistory] found. *)
Definition new_Picker (saved : list string) : Picker :=
  mkPicker "#000000" saved 20 false.

(** [addToHistory]: most recent first, each colour once, at most
    [maxHistorySize] entries. *)
Definition addToHistory (hex : string) (p : Picker) : Picker :=
  let h1 := List.filter (fun c => negb (bool_decide (c = hex))) (cp_colorHistory p) in
  let h2 := hex :: h1 in
  let h3 := if decide (cp_maxHistorySize p < length h2)%nat
            then take (cp_maxHistorySize p) h2 else h2 in
  mkPicker (cp_currentColor p) h3 (cp_maxHistorySize p) (cp_isEyedropperActive p).

(** [canvas.setColor] *)
Definition canvas_setColor (color : string) (c : CanvasDrawing) : CanvasDrawing :=
  mkCanvasDrawing (surface c) (isDrawing c) (currentTool c) color (strokeWidth c)
    (history c) (historyStep c) (maxHistorySteps c) (drawingBuffer c)
    (lastSyncTime c) (batchInterval c).

(** [setColor] on the picker and [window.canvas]. *)
Definition setColor (hex : string) (pc : Picker * CanvasDrawing) : Picker * CanvasDrawing :=
  if valid_hex hex then
    let color := toUpperCase hex in
    let p1 := mkPicker color (cp_colorHistory (fst pc)) (cp_maxHistorySize (fst pc))
                       (cp_isEyedropperActive (fst pc)) in
    (addToHistory color p1, canvas_setColor color (snd pc))
  else pc.

(** [pickColorFromCanvas] once the pixel has been read: the eyedropper
    picks its colour and switches off. *)
Definition pickColor (r g b : nat) (pc : Picker * CanvasDrawing) : Picker * CanvasDrawing :=
  let pc1 := setColor (rgbToHex r g b) pc in
  (mkPicker (cp_currentColor (fst pc1)) (cp_colorHistory (fst pc1))
            (cp_maxHistorySize (fst pc1)) false,
   snd pc1).

End ColorPicker.

(** ** Vocabulary of the further properties *)

Module Vocabulary2.

(** The operations that reached the network in [drawing] messages, in
    order. *)
Definition transmitted_ops (m : WebSocketManager) : list Operation :=
  flat_map (fun msg => match msg with
                       | drawing (Some ops) _ => ops
                       | _ => []
                       end)
           (outbox m).

(** Every operation the page has produced and not lost: transmitted, in
    the manager's buffer, or in the canvas buffer. *)
Definition accounted_ops (p : Page) : list Operation :=
  transmitted_ops (wsManager p) ++ wsDrawingBuffer (wsManager p)
  ++ drawingBuffer (canvas p).

(** The operation a pointer event adds to the canvas buffer. *)
Definition produced_op (e : PointerEvent) (p : Page) : list Operation :=
  match e with
  | MouseDown now x y => [local_op "start" x y now (canvas p)]
  | MouseMove now x y =>
      if isDrawing (canvas p) then [local_op "draw" x y now (canvas p)] else []
  | MouseUp _ => []
  end.

(** The manager can transmit. *)
Definition online (m : WebSocketManager) : Prop :=
  isConnected m = true /\ ws m = Some 1%nat.


(** A client that respects the protocol: it joins once per connection,
    with a non-empty user id that no participant of the room has. *)
Definition disciplined (e : Event) (st : State) : Prop :=
  match e with
  | Message i (user_join uid _ _) _ _ =>
      uid <> ""%string /\
      (forall c, conns st !! i = Some c -> cl_userId c = None) /\
      ~ In uid (room_participants "default" st)
  | _ => True
  end.

(** Every event of a run is disciplined in the state it meets. *)
Fixpoint disciplined_run (es : list Event) (st : State) : Prop :=
  match es with
  | [] => True
  | e :: rest => disciplined e st /\ disciplined_run rest (deliver e st)
  end.

(** Room and connections agree. *)
Definition synced (st : State) : Prop :=
  (forall c, In c (conns st) ->
     cl_roomId c = "default"%string /\ ws_userId (sock c) = cl_userId c /\
     cl_userId c <> Some ""%string) /\
  NoDup (room_participants "default" st) /\
  room_participants "default" st ≡ₚ open_participants "default" st.

(** The upper-case hexadecimal digit of a value below 16. *)
Definition upper_digit (n : nat) : ascii :=
  nth n ["0"; "1"; "2"; "3"; "4"; "5"; "6"; "7"; "8"; "9";
         "A"; "B"; "C"; "D"; "E"; "F"]%char "0"%char.

(** A byte prints as two upper-case hexadecimal digits that read back as
    the byte. *)
Definition hex_byte_ok (x : nat) : bool :=
  match ColorPicker.toUpperCase (ColorPicker.pad_hex x) with
  | String c1 (String c2 EmptyString) =>
      Ascii.eqb c1 (upper_digit (x / 16)) && Ascii.eqb c2 (upper_digit (x mod 16))
  | _ => false
  end.

(** Every room keeps the cap of its constructor and a log within it. *)
Definition logs_bounded (st : State) : Prop :=
  Forall (fun kr : string * Room =>
            maxHistorySize (snd kr) = 1000%nat /\
            (length (drawingHistory (snd kr)) <= 1000)%nat)
         (rooms st).

(** [updateCursor]: the side of the cursor outline for a stroke width,
    [Math.max(8, Math.min(64, this.strokeWidth * 2))]. *)
Definition cursorSize (strokeWidth : Z) : Z := Z.max 8 (Z.min 64 (strokeWidth * 2)).

End Vocabulary2.
Export Vocabulary2.

(** * Properties *)

(** ** Operation log *)

Section OperationLog.

Lemma forEach_push_imap now i ops h :
  forEach_push now i ops h = h ++ imap (fun j op => stamp (now (i + j)%nat) op) ops.
Proof.
  revert i h; induction ops as [|op ops IH]; intros i h; simpl.
  - by rewrite app_nil_r.
  - rewrite IH, <- app_assoc. simpl. rewrite Nat.add_0_r. do 2 f_equal.
    apply imap_ext. intros j x _. simpl. by rewrite Nat.add_succ_r.
Qed.

Lemma forEach_push_stamped now ops h :
  forEach_push now 0 ops h = h ++ stamped now ops.
Proof. by rewrite forEach_push_imap. Qed.

Lemma slice_from_end_length {A} n (l : list A) :
  n <> 0%nat -> length (slice_from_end n l) = Nat.min (length l) n.
Proof. destruct n; [done|]. intros _. simpl. rewrite length_drop. lia. Qed.

Lemma slice_from_end_short {A} n (l : list A) :
  (length l <= n)%nat -> slice_from_end n l = l.
Proof.
  intros Hle. destruct n; [done|]. simpl.
  by replace (length l - S n)%nat with 0%nat by lia.
Qed.

Lemma slice_from_end_app {A} n (a b : list A) :
  slice_from_end n (slice_from_end n a ++ b) = slice_from_end n (a ++ b).
Proof.
  destruct n as [|n]; [done|]. unfold slice_from_end.
  destruct (decide (length a <= S n)%nat) as [Hle|Hgt].
  - by replace (length a - S n)%nat with 0%nat by lia.
  - rewrite !length_app, length_drop.
    replace (length a - (length a - S n) + length b - S n)%nat
      with (length b) by lia.
    replace (length a + length b - S n)%nat
      with ((length a - S n) + length b)%nat by lia.
    rewrite <- drop_drop. f_equal. rewrite drop_app_le by lia. done.
Qed.

(** One call leaves the last [maxHistorySize] entries of what was there
    followed by what was written. *)
Lemma addDrawingOperation_history now ops r :
  getDrawingHistory (addDrawingOperation now ops r)
  = slice_from_end (maxHistorySize r) (drawingHistory r ++ stamped now ops)
    \/ maxHistorySize r = 0%nat.
Proof.
  unfold addDrawingOperation, getDrawingHistory.
  rewrite forEach_push_stamped. case_decide; simpl; [by left|].
  left. symmetry. apply slice_from_end_short. lia.
Qed.

Lemma addDrawingOperation_maxHistorySize now ops r :
  maxHistorySize (addDrawingOperation now ops r) = maxHistorySize r.
Proof. unfold addDrawingOperation. by case_decide. Qed.

Lemma appendAll_maxHistorySize calls : forall r,
  maxHistorySize (appendAll calls r) = maxHistorySize r.
Proof.
  induction calls as [|c calls IH]; intros r; [done|].
  unfold appendAll in *. simpl. by rewrite IH, addDrawingOperation_maxHistorySize.
Qed.

Lemma addDrawingOperation_bounded now ops r :
  maxHistorySize r <> 0%nat ->
  (length (drawingHistory (addDrawingOperation now ops r)) <= maxHistorySize r)%nat.
Proof.
  intros Hn. unfold addDrawingOperation. case_decide; simpl; [|lia].
  rewrite slice_from_end_length by done. lia.
Qed.

Lemma appendAll_history calls : forall r,
  maxHistorySize r <> 0%nat ->
  (length (drawingHistory r) <= maxHistorySize r)%nat ->
  getDrawingHistory (appendAll calls r)
  = slice_from_end (maxHistorySize r) (drawingHistory r ++ received calls).
Proof.
  induction calls as [|[now ops] calls IH]; intros r Hn Hlen.
  - unfold received, appendAll, getDrawingHistory. cbn [foldl map concat].
    rewrite app_nil_r. symmetry. by apply slice_from_end_short.
  - unfold appendAll in *. cbn [foldl fst snd].
    rewrite IH; rewrite ?addDrawingOperation_maxHistorySize;
      [| done | by apply addDrawingOperation_bounded].
    destruct (addDrawingOperation_history now ops r) as [H|H]; [|lia].
    unfold getDrawingHistory in H. rewrite H.
    unfold received. cbn [map concat fst snd]. fold (received calls).
    by rewrite slice_from_end_app, app_assoc.
Qed.

Lemma received_stamps calls :
  Forall2 (fun logged sent => exists t, logged = stamp t sent)
          (received calls) (concat (map snd calls)).
Proof.
  induction calls as [|[now ops] calls IH]; [constructor|].
  unfold received in *. cbn [map concat fst snd].
  apply Forall2_app; [|done]. unfold stamped. clear IH.
  generalize now. induction ops as [|op ops IH]; intros now'; [constructor|].
  simpl. constructor; [by eexists|]. apply (IH (now' ∘ S)).
Qed.

Lemma received_singletons (op : nat -> Operation) (now : nat -> Z) ks :
  received (map (fun k => (fun _ : nat => now k, [op k])) ks)
  = map (fun k => stamp (now k) (op k)) ks.
Proof.
  induction ks as [|k ks IH]; [done|].
  unfold received in *. cbn [map concat fst snd]. by rewrite IH.
Qed.

(** C1. After any run of append calls on a fresh room the log holds at
    most 1000 entries, and replay returns exactly the last
    min(total, 1000) operations written, in receipt order; every logged
    entry is the operation sent, re-stamped with its receipt time.  After
    1050 single-operation appends replay returns operations 51..1050. *)
Theorem operation_log_bounded_replay :
  (forall id t0 calls,
     let r := appendAll calls (new_Room id t0) in
     (length (getDrawingHistory r) <= 1000)%nat /\
     length (getDrawingHistory r) = Nat.min (length (received calls)) 1000 /\
     getDrawingHistory r
       = drop (length (received calls) - 1000) (received calls) /\
     Forall2 (fun logged sent => exists t, logged = stamp t sent)
             (received calls) (concat (map snd calls))) /\
  (forall id t0 (op : nat -> Operation) (now : nat -> Z),
     getDrawingHistory
       (appendAll (map (fun k => (fun _ : nat => now k, [op k])) (seq 1 1050))
                  (new_Room id t0))
     = map (fun k => stamp (now k) (op k)) (seq 51 1000)).
Proof.
  assert (Hgen : forall id t0 calls,
    getDrawingHistory (appendAll calls (new_Room id t0))
    = drop (length (received calls) - 1000) (received calls)).
  { intros id t0 calls. rewrite appendAll_history.
    - change (maxHistorySize (new_Room id t0)) with (500 + 500)%nat.
      change (drawingHistory (new_Room id t0)) with (@nil Operation).
      rewrite app_nil_l. reflexivity.
    - discriminate.
    - cbn [new_Room drawingHistory length]. lia. }
  split.
  - intros id t0 calls r. subst r. rewrite Hgen, length_drop.
    repeat split; try lia. apply received_stamps.
  - intros id t0 op now. rewrite Hgen, received_singletons, length_map, length_seq.
    rewrite skipn_map. f_equal.
Qed.

End OperationLog.

(** ** Broadcast engine *)

Section Broadcast.

Lemma not_excluded_true excludeUserId c :
  not_excluded excludeUserId c = true <->
  (forall x, excludeUserId = Some x -> ws_userId c <> Some x).
Proof.
  unfold not_excluded. destruct excludeUserId as [x|].
  - rewrite bool_decide_eq_true. split.
    + intros H y [= <-]. done.
    + intros H. by apply H.
  - split; [intros _ x; discriminate | done].
Qed.

Lemma getRoomClients_from_In roomId uc clients : forall i j c,
  In (j, c) (getRoomClients_from i roomId clients uc) <->
  exists k, j = (i + k)%nat /\ clients !! k = Some c /\
            readyState c = 1%nat /\
            exists d, connection_of c uc = Some d /\ cd_roomId d = roomId.
Proof.
  induction clients as [|cl rest IH]; intros i j c; simpl.
  - split; [intros [] | intros (k & _ & Hk & _); by rewrite lookup_nil in Hk].
  - assert (Htail : In (j, c) (getRoomClients_from (S i) roomId rest uc) <->
              exists k, j = (i + S k)%nat /\ (cl :: rest) !! S k = Some c /\
                readyState c = 1%nat /\
                exists d, connection_of c uc = Some d /\ cd_roomId d = roomId).
    { rewrite IH. split; intros (k & -> & H); exists k; (split; [lia | done]). }
    destruct (connection_of cl uc) as [d|] eqn:Hd.
    + case_decide as Hdec.
      * simpl. rewrite Htail. split.
        -- intros [[= <- <-] | (k & H)]; [|by exists (S k)].
           exists 0%nat. split; [lia|]. split; [done|]. destruct Hdec. eauto.
        -- intros ([|k] & -> & Hk & H); [left | right; by exists k].
           simpl in Hk. injection Hk as <-. f_equal. lia.
      * rewrite Htail. split; [intros (k & H); by exists (S k)|].
        intros ([|k] & -> & Hk & Hr & d' & Hd' & Hroom); [|exists k; eauto 10].
        simpl in Hk. injection Hk as <-. rewrite Hd in Hd'. injection Hd' as <-.
        tauto.
    + rewrite Htail. split; [intros (k & H); by exists (S k)|].
      intros ([|k] & -> & Hk & Hr & d' & Hd' & Hroom); [|exists k; eauto 10].
      simpl in Hk. injection Hk as <-. congruence.
Qed.


Lemma broadcastToRoom_In roomId message wss excludeUserId uc j m :
  In (j, m) (broadcastToRoom roomId message wss excludeUserId uc) <->
  m = message /\ exists c, wss !! j = Some c /\ receives roomId excludeUserId uc c.
Proof.
  unfold broadcastToRoom, getRoomClients, receives. rewrite in_flat_map. split.
  - intros ([j' c] & Hin & Hsend). simpl in Hsend.
    apply getRoomClients_from_In in Hin as (k & -> & Hk & Hr & Hd).
    destruct (not_excluded excludeUserId c) eqn:Hex; [|done].
    case_decide; [|done]. destruct Hsend as [[= <- <-]|[]].
    split; [done|]. exists c. by rewrite <- not_excluded_true.
  - intros (-> & c & Hj & Hr & Hd & Hex). exists (j, c). split.
    + apply getRoomClients_from_In. by exists j.
    + simpl. apply not_excluded_true in Hex. rewrite Hex.
      case_decide; [by left | done].
Qed.



End Broadcast.

(** ** Server handlers *)

Section ServerHandlers.

Lemma jsmap_get_set_eq {V} (k : string) (v : V) m :
  jsmap_get k (jsmap_set k v m) = Some v.
Proof.
  induction m as [|[k' v'] m IH]; simpl.
  - by rewrite decide_True.
  - destruct (decide (k' = k)) as [->|Hne]; simpl.
    + by rewrite decide_True.
    + by rewrite decide_False.
Qed.

Lemma jsmap_get_set_ne {V} (k k0 : string) (v : V) m :
  k <> k0 -> jsmap_get k0 (jsmap_set k v m) = jsmap_get k0 m.
Proof.
  intros Hne. induction m as [|[k' v'] m IH]; simpl.
  - by rewrite decide_False.
  - destruct (decide (k' = k)) as [->|Hne']; simpl.
    + by rewrite !decide_False.
    + destruct (decide (k' = k0)); [done | apply IH].
Qed.

Lemma with_room_spec room now f st :
  let st' := fst (with_room room now f st) in
  snd (with_room room now f st) = f (room_or_new room now st) /\
  jsmap_get room (rooms st') = Some (f (room_or_new room now st)) /\
  userConnections st' = userConnections st /\
  conns st' = conns st /\
  sent st' = sent st.
Proof.
  unfold with_room, getOrCreateRoom, room_or_new.
  destruct (jsmap_get room (rooms st)) as [r|]; simpl;
    by rewrite jsmap_get_set_eq.
Qed.

Lemma room_or_new_log room now st :
  getDrawingHistory (room_or_new room now st) = room_log room st.
Proof. unfold room_or_new, room_log. by destruct (jsmap_get room (rooms st)). Qed.


(** C10. A [drawing] or [cursor_move] message on a connection whose
    closure [userId] is still null is ignored as a whole: the server state
    is left as it was, so no operation log changes and nothing is sent. *)
Theorem unjoined_messages_ignored st i c now stamps :
  conns st !! i = Some c ->
  cl_userId c = None ->
  (forall operations timestamp,
      let st' := on_message i (drawing operations timestamp) now stamps st in
      st' = st /\ (forall room, room_log room st' = room_log room st) /\
      sent st' = sent st) /\
  (forall x y timestamp,
      let st' := on_message i (cursor_move x y timestamp) now stamps st in
      st' = st /\ (forall room, room_log room st' = room_log room st) /\
      sent st' = sent st).
Proof.
  intros Hc Hun. split.
  - intros operations timestamp st'.
    assert (Heq : st' = st).
    { subst st'. simpl. unfold handleDrawing. by rewrite Hc, Hun. }
    by rewrite Heq.
  - intros x y timestamp st'.
    assert (Heq : st' = st).
    { subst st'. simpl. unfold handleCursorMove. by rewrite Hc, Hun. }
    by rewrite Heq.
Qed.

Lemma jsmap_set_Forall {V} (P : string * V -> Prop) k v m :
  P (k, v) -> Forall P m -> Forall P (jsmap_set k v m).
Proof.
  intros Hv. induction 1 as [|[k' v'] m Hx Hm IH]; simpl.
  - by repeat constructor.
  - case_decide; by constructor.
Qed.

Lemma jsmap_get_Forall {V} (P : string * V -> Prop) k v m :
  Forall P m -> jsmap_get k m = Some v -> P (k, v).
Proof.
  induction 1 as [|[k' v'] m Hx Hm IH]; simpl; [done|].
  case_decide; [|done]. intros [= <-]. by subst.
Qed.

Lemma room_or_new_capped room now st :
  rooms_capped st -> maxHistorySize (room_or_new room now st) = 1000%nat.
Proof.
  intros H. unfold room_or_new.
  destruct (jsmap_get room (rooms st)) as [r|] eqn:Hr; [|done].
  apply (jsmap_get_Forall _ _ _ _ H Hr).
Qed.

Lemma with_room_capped room now f st :
  (forall r, maxHistorySize (f r) = maxHistorySize r) ->
  rooms_capped st -> rooms_capped (fst (with_room room now f st)).
Proof.
  intros Hf H. pose proof (room_or_new_capped room now st H) as Hn.
  unfold rooms_capped, with_room, getOrCreateRoom, room_or_new in *.
  destruct (jsmap_get room (rooms st)) as [r|]; simpl.
  - apply jsmap_set_Forall; [simpl; by rewrite Hf | done].
  - apply jsmap_set_Forall; [simpl; by rewrite Hf |].
    by apply jsmap_set_Forall.
Qed.

Ltac with_room_cases :=
  match goal with
  | |- context [with_room ?room ?now ?f ?st] =>
      let H := fresh "Hcap" in
      let E := fresh "Ewr" in
      pose proof (with_room_capped room now f st) as H;
      destruct (with_room room now f st) as [? ?] eqn:E; simpl in H
  end.

Lemma on_message_capped i m now stamps st :
  rooms_capped st -> rooms_capped (on_message i m now stamps st).
Proof.
  intros H. destruct m; simpl; try done.
  - unfold handleUserJoin. destruct (conns st !! i) as [c|]; [|done].
    with_room_cases. case_decide; simpl; by apply Hcap.
  - unfold handleDrawing. destruct (conns st !! i) as [c|]; [|done].
    destruct (cl_userId c) as [u|]; [|done].
    destruct (truthy (Some u)); [|done].
    destruct operations as [ops|].
    + with_room_cases. simpl. apply Hcap; [|done].
      intros ?. apply addDrawingOperation_maxHistorySize.
    + by apply with_room_capped.
  - unfold handleCursorMove. destruct (conns st !! i) as [c|]; [|done].
    destruct (cl_userId c) as [u|]; [|done].
    by destruct (truthy (Some u)).
  - unfold handleCanvasSync. destruct (conns st !! i) as [c|]; [|done].
    with_room_cases. simpl. by apply Hcap.
Qed.

Lemma deliver_capped e st : rooms_capped st -> rooms_capped (deliver e st).
Proof.
  intros H. destruct e as [|i m now stamps|i now]; simpl; [done| |].
  - destruct (is_open i st); [by apply on_message_capped | done].
  - destruct (is_open i st); [|done].
    unfold on_close. destruct (conns (close_socket i st) !! i) as [c|]; [|done].
    destruct (cl_userId c) as [u|]; [|done].
    destruct (truthy (Some u)); [|done].
    with_room_cases. simpl. by apply Hcap.
Qed.

Lemma run_capped es : forall st, rooms_capped st -> rooms_capped (run es st).
Proof.
  induction es as [|e es IH]; intros st H; [done|].
  apply IH. by apply deliver_capped.
Qed.

Lemma stamped_keeps_coordinates stamps ops :
  Forall2 (fun logged op =>
             op_x logged = op_x op /\ op_y logged = op_y op /\
             logged = stamp (op_timestamp logged) op)
          (stamped stamps ops) ops.
Proof.
  unfold stamped. revert stamps.
  induction ops as [|op ops IH]; intros f; [constructor|].
  simpl. constructor; [done | apply (IH (f ∘ S))].
Qed.

(** C8, as the code has it.  A [drawing] message with an array of
    operations on an active connection appends every operation to the
    room's log, re-stamped with its receipt time and capped at the last
    1000 entries, and relays the operations as received to the other
    members: coordinates are neither clipped nor rejected. *)
Theorem drawing_logged_and_relayed_as_received st i c u ops timestamp now stamps :
  rooms_capped st ->
  conns st !! i = Some c ->
  cl_userId c = Some u ->
  u <> ""%string ->
  let room := cl_roomId c in
  let st' := handleDrawing i (Some ops) timestamp now stamps st in
  room_log room st'
    = slice_from_end 1000 (room_log room st ++ stamped stamps ops) /\
  sent st' = sent st ++ broadcastToRoom room (drawing_bcast u ops timestamp)
                                        (wss st) (Some u) (userConnections st) /\
  Forall2 (fun logged op =>
             op_x logged = op_x op /\ op_y logged = op_y op /\
             logged = stamp (op_timestamp logged) op)
          (stamped stamps ops) ops.
Proof.
  intros Hcap Hc Hu Hne room st'. subst st'. unfold handleDrawing.
  rewrite Hc, Hu. unfold truthy. rewrite bool_decide_eq_true_2 by done.
  fold room.
  pose proof (with_room_spec room now (addDrawingOperation stamps ops) st)
    as (Hr & Hget & Huc & Hconns & Hsent).
  destruct (with_room room now (addDrawingOperation stamps ops) st)
    as [st1 room_] eqn:Hwr.
  cbn [fst snd] in Hr, Hget, Huc, Hconns, Hsent.
  split; [|split].
  - unfold room_log at 1. cbn [broadcast rooms]. rewrite Hget.
    destruct (addDrawingOperation_history stamps ops (room_or_new room now st))
      as [H|H].
    + rewrite H, room_or_new_capped by done.
      change (drawingHistory (room_or_new room now st))
        with (getDrawingHistory (room_or_new room now st)).
      by rewrite room_or_new_log.
    + rewrite room_or_new_capped in H by done. discriminate.
  - cbn [broadcast sent]. unfold wss. by rewrite Hsent, Hconns, Huc.
  - apply stamped_keeps_coordinates.
Qed.

End ServerHandlers.

(** ** Server scenarios *)

Section ServerScenarios.

Lemma init_capped : rooms_capped init.
Proof. constructor. Qed.

(** C8, as stated, fails: an operation with [x = -5], outside every
    surface, sent by the active user [a], is logged and relayed to [b] with
    [x = -5]. *)
Lemma out_of_bounds_drawing_not_clipped :
  let st' := deliver (Message 0 (drawing (Some [oob_op]) 77) 10 (fun _ => 11%Z))
                     two_joined in
  room_log "default" st' = [stamp 11 oob_op] /\
  sent st' = sent two_joined ++ [(1%nat, drawing_bcast "a" [oob_op] 77)] /\
  op_x (stamp 11 oob_op) = (-5)%Z /\
  (forall w h, ~ within_bounds w h (stamp 11 oob_op)).
Proof.
  repeat split; try (vm_compute; reflexivity).
  intros w h [[Hx _] _]. simpl in Hx. lia.
Qed.

(** The statement above at [two_joined], user [a] sending [oob_op]. *)
Lemma drawing_logged_and_relayed_as_received_witness :
  rooms_capped two_joined /\
  (exists c, conns two_joined !! 0%nat = Some c /\ cl_userId c = Some "a"%string) /\
  "a"%string <> ""%string /\
  room_log "default"
    (handleDrawing 0 (Some [oob_op]) 77 10 (fun _ => 11%Z) two_joined)
  = slice_from_end 1000
      (room_log "default" two_joined ++ stamped (fun _ => 11%Z) [oob_op]).
Proof.
  assert (Hcap : rooms_capped two_joined) by (apply run_capped, init_capped).
  split; [exact Hcap|]. split; [eexists; split; reflexivity|].
  split; [discriminate|].
  exact (proj1 (drawing_logged_and_relayed_as_received two_joined 0
                  (mkConnection (mkClient 1 (Some "a"%string)) "default"
                     (Some "a"%string)
                     (Some (mkUserData "a" "User-a" "#FF6B6B" 5)))
                  "a" [oob_op] 77 10 (fun _ => 11%Z)
                  Hcap eq_refl eq_refl ltac:(discriminate))).
Defined.



(** Socket 1 of [one_joined] has not joined: its messages change nothing. *)
Lemma unjoined_messages_ignored_witness :
  conns one_joined !! 1%nat = Some (mkConnection (mkClient 1 None) "default" None None) /\
  on_message 1 (drawing (Some [oob_op]) 77) 10 no_stamps one_joined = one_joined /\
  sent (on_message 1 (cursor_move 3 4 77) 10 no_stamps one_joined) = sent one_joined.
Proof.
  pose proof (unjoined_messages_ignored one_joined 1
                (mkConnection (mkClient 1 None) "default" None None)
                10%Z no_stamps eq_refl eq_refl) as [Hd Hc].
  split; [reflexivity|]. split.
  - exact (proj1 (Hd (Some [oob_op]) 77%Z)).
  - exact (proj2 (proj2 (Hc 3%Z 4%Z 77%Z))).
Defined.

(** C4 fails on the code.  Socket 0 joins as [a], then joins again as [b]:
    the second join is neither ignored nor answered by closing the socket,
    and the room lists two participants for one open connection.  After
    the socket closes only [b] is removed: [a] stays in the room, and in
    [userConnections], with no connection behind it. *)
Theorem duplicate_join_leaves_ghost :
  let joined_twice := run [Connect; join_a 0; join_b 0] init in
  let closed := deliver (Close 0 9) joined_twice in
  is_open 0 joined_twice = true /\
  room_participants "default" joined_twice = ["a"; "b"]%string /\
  open_participants "default" joined_twice = ["b"]%string /\
  room_participants "default" closed = ["a"]%string /\
  open_participants "default" closed = [] /\
  jsmap_keys (userConnections closed) = ["a"]%string.
Proof. repeat split; vm_compute; reflexivity. Qed.

End ServerScenarios.

(** ** Local history engine *)

Section LocalHistory.

Lemma saveHistory_from_start c :
  maxHistorySteps c = 50%nat -> history c = [] -> historyStep c = 0%Z ->
  step_past_end (saveHistory c).
Proof.
  intros Hmax Hh Hs. unfold saveHistory, slice_to. cbn [set_history history
    historyStep maxHistorySteps surface]. rewrite Hh, Hs, Hmax. simpl.
  unfold step_past_end. simpl. rewrite Hmax. repeat split; lia.
Qed.

Lemma saveHistory_step_past_end c :
  step_past_end c -> step_past_end (saveHistory c).
Proof.
  intros (Hmax & Hlen & Hs). unfold saveHistory, slice_to.
  cbn [set_history history historyStep maxHistorySteps surface].
  rewrite (decide_False (P := (historyStep c + 1 < 0)%Z)) by lia.
  replace (Z.to_nat (historyStep c + 1)) with (S (length (history c))) by lia.
  rewrite take_ge by lia. rewrite Hmax, length_app. cbn [length].
  unfold step_past_end. case_decide as Hfull.
  - cbn [set_history history historyStep maxHistorySteps].
    destruct (history c) as [|s h] eqn:Hh; [simpl in Hlen; lia|].
    cbn [tail app]. rewrite length_app. simpl in *. repeat split; lia.
  - cbn [set_historyStep set_history history historyStep maxHistorySteps].
    rewrite length_app. simpl. repeat split; lia.
Qed.

Lemma redo_step_past_end c : step_past_end c -> redo c = c.
Proof.
  intros (_ & _ & Hs). unfold redo. rewrite decide_False by lia. done.
Qed.

Lemma undoBtn_click_id c : undoBtn_click c = c.
Proof. reflexivity. Qed.

Lemma history_call_step_past_end k c :
  step_past_end c -> step_past_end (history_call k c).
Proof.
  intros H. destruct k as [s| |]; simpl.
  - apply saveHistory_step_past_end. exact H.
  - by rewrite undoBtn_click_id.
  - unfold redoBtn_click. simpl. by rewrite redo_step_past_end.
Qed.

Lemma new_CanvasDrawing_step_past_end blank now :
  step_past_end (new_CanvasDrawing blank now).
Proof. by apply saveHistory_from_start. Qed.

Lemma run_history_step_past_end calls : forall c,
  step_past_end c -> step_past_end (run_history calls c).
Proof.
  induction calls as [|k calls IH]; intros c H; [done|].
  apply IH. by apply history_call_step_past_end.
Qed.

(** C3 fails on the code.  [historyStep] starts at 0 where the first
    [saveHistory] expects -1: after the constructor the history holds one
    snapshot and [historyStep] is 1, and after every later commit, undo
    click and redo click [historyStep] equals [history.length], so
    [historyStep < history.length] never holds. *)
Theorem history_step_past_the_end blank now :
  (let c := new_CanvasDrawing blank now in
   history c = [blank] /\ historyStep c = 1%Z) /\
  (forall calls,
     let c := run_history calls (new_CanvasDrawing blank now) in
     history c <> [] /\
     historyStep c = Z.of_nat (length (history c)) /\
     ~ (0 <= historyStep c < Z.of_nat (length (history c)))%Z).
Proof.
  split; [by split|]. intros calls c.
  assert (H : step_past_end c).
  { apply run_history_step_past_end, new_CanvasDrawing_step_past_end. }
  destruct H as (_ & Hlen & Hs). repeat split; [|done|lia].
  intros Hnil. rewrite Hnil in Hlen. simpl in Hlen. lia.
Qed.

(** C2 fails on the code.  Class [CanvasDrawing] has no [undo] member, so
    the guarded call of the undo button and of Ctrl+Z does nothing: with
    [historyStep = 3 > 0] the step stays 3 and the surface is not redrawn
    from an earlier snapshot. *)
Theorem undo_is_missing :
  CanvasDrawing_member "undo" = None /\
  (forall c, undoBtn_click c = c) /\
  (let c := run_history [Commit [1; 0; 0; 255]; Commit [2; 0; 0; 255]]%Z
                        (new_CanvasDrawing [0; 0; 0; 0]%Z 0) in
   (historyStep c > 0)%Z /\
   historyStep (undoBtn_click c) = 3%Z /\
   historyStep (undoBtn_click c) <> (historyStep c - 1)%Z /\
   surface (undoBtn_click c) = [2; 0; 0; 255]%Z).
Proof. repeat split; try reflexivity. discriminate. Qed.

End LocalHistory.

(** ** Operation batcher *)

Section Batcher.

Lemma throttled_refl now m : throttled now m m.
Proof. split; [done|]. by left. Qed.

Lemma throttled_trans now m1 m2 m3 :
  throttled now m1 m2 -> throttled now m2 m3 -> throttled now m1 m3.
Proof.
  intros [Hf1 H1] [Hf2 H2]. split; [congruence|].
  destruct H1 as [[Hd1 Ht1]|[Hgt1 Ht1]], H2 as [[Hd2 Ht2]|[Hgt2 Ht2]].
  - left. split; congruence.
  - right. split; [|done]. rewrite <- Ht1, <- Hf1. done.
  - right. split; [done | congruence].
  - right. by split.
Qed.

Lemma send_drawing_messages message m :
  is_drawing message = false ->
  drawing_messages (send message m) = drawing_messages m.
Proof.
  intros Hnd. unfold send, drawing_messages.
  destruct (isConnected m && _); [|done]. simpl.
  rewrite List.filter_app. simpl. rewrite Hnd. by rewrite app_nil_r.
Qed.

Lemma send_flush_fields message m :
  lastFlushTime (send message m) = lastFlushTime m /\
  flushInterval (send message m) = flushInterval m /\
  wsDrawingBuffer (send message m) = wsDrawingBuffer m.
Proof. unfold send. by destruct (isConnected m && _). Qed.

Lemma sendCursorMove_throttled now x y m : throttled now m (sendCursorMove now x y m).
Proof.
  unfold sendCursorMove, throttled.
  destruct (send_flush_fields (cursor_move x y now) m) as (Ht & Hf & _).
  split; [done|]. left. split; [|done]. by apply send_drawing_messages.
Qed.

Lemma sendDrawing_throttled now op m : throttled now m (sendDrawing now op m).
Proof.
  unfold sendDrawing. cbn [set_drawingBuffer lastFlushTime flushInterval].
  case_decide as Hgt; [|split; [done|by left]].
  unfold flushDrawingBuffer. cbn [set_drawingBuffer wsDrawingBuffer].
  destruct (wsDrawingBuffer m ++ [op]) as [|o l] eqn:Hbuf.
  { by apply app_nil in Hbuf as [_ ?]. }
  split; [|by right].
  cbn [set_lastFlushTime set_drawingBuffer flushInterval].
  by destruct (send_flush_fields (drawing (Some (o :: l)) now)
                 (set_drawingBuffer (o :: l) m)) as (_ & -> & _).
Qed.

Lemma foldl_sendDrawing_throttled now ops : forall m,
  throttled now m (foldl (fun m op => sendDrawing now op m) m ops).
Proof.
  induction ops as [|op ops IH]; intros m; [apply throttled_refl|].
  simpl. eapply throttled_trans; [apply sendDrawing_throttled | apply IH].
Qed.

Lemma emitDrawing_throttled now p :
  throttled now (wsManager p) (wsManager (emitDrawing now p)).
Proof.
  unfold emitDrawing. destruct (drawingBuffer (canvas p)) as [|o l];
    [apply throttled_refl | apply foldl_sendDrawing_throttled].
Qed.

Lemma on_pointer_throttled drawLine e p :
  throttled (event_time e) (wsManager p) (wsManager (on_pointer drawLine e p)).
Proof.
  destruct e as [now x y|now x y|now]; simpl.
  - apply sendCursorMove_throttled.
  - unfold draw. destruct (isDrawing (canvas p)); [|apply throttled_refl].
    cbn [emitMouseMove wsManager].
    eapply throttled_trans; [|apply sendCursorMove_throttled].
    case_decide; [|apply throttled_refl]. cbn [wsManager].
    match goal with
    | |- throttled _ _ (wsManager (emitDrawing ?n ?q)) =>
        exact (emitDrawing_throttled n q)
    end.
  - unfold stopDrawing. destruct (isDrawing (canvas p)); [|apply throttled_refl].
    cbn [wsManager canvas set_isDrawing drawingBuffer].
    destruct (drawingBuffer (canvas p)) as [|o l] eqn:Hbuf;
      [apply throttled_refl|].
    cbn [wsManager].
    match goal with
    | |- throttled _ _ (wsManager (emitDrawing ?n ?q)) =>
        exact (emitDrawing_throttled n q)
    end.
Qed.

(** The half of C7 that holds: a pointer handler transmits a [drawing]
    message only when more than the flush interval has passed since the
    last flush. *)
Lemma drawing_sent_only_after_interval drawLine e p :
  drawing_messages (wsManager (on_pointer drawLine e p))
    <> drawing_messages (wsManager p) ->
  (event_time e - lastFlushTime (wsManager p) > flushInterval (wsManager p))%Z.
Proof.
  intros Hsent.
  destruct (on_pointer_throttled drawLine e p) as [_ [[Hsame _]|[Hgt _]]]; done.
Qed.

(** C7 fails on the code at gesture end.  The move at 1010 ms flushes
    (more than 50 ms after the last flush at 0) and sets [lastFlushTime]
    to 1010.  At the release at 1030 ms the canvas buffer is not empty,
    but [stopDrawing] hands it to [sendDrawing], which flushes only after
    the interval: 20 ms is not enough, so no [drawing] message leaves and
    two operations of the stroke stay in the manager's buffer. *)
Theorem gesture_end_does_not_flush :
  let before := run_pointer short_stroke joined_page in
  let after := on_pointer no_ink (MouseUp 1030) before in
  Joined (wsManager before) /\
  isDrawing (canvas before) = true /\
  drawingBuffer (canvas before) = [mkOperation "draw" 7 7 "brush" "#000000" 3 1020] /\
  lastFlushTime (wsManager before) = 1010%Z /\
  isDrawing (canvas after) = false /\
  drawing_messages (wsManager after) = drawing_messages (wsManager before) /\
  outbox (wsManager after) = outbox (wsManager before) /\
  wsDrawingBuffer (wsManager after)
    = [mkOperation "draw" 6 6 "brush" "#000000" 3 1010;
       mkOperation "draw" 7 7 "brush" "#000000" 3 1020].
Proof. unfold Joined. repeat apply conj; vm_compute; reflexivity. Qed.

End Batcher.

(** ** Client reconnection *)

Section Reconnect.

Lemma new_WebSocketManager_inv uid name color now :
  conn_inv (new_WebSocketManager uid name color now).
Proof. unfold conn_inv; simpl. repeat split; try lia. by left. Qed.

Lemma send_fields message m :
  let m' := send message m in
  ws m' = ws m /\ isConnected m' = isConnected m /\
  reconnectAttempts m' = reconnectAttempts m /\
  maxReconnectAttempts m' = maxReconnectAttempts m /\
  reconnectDelay m' = reconnectDelay m /\ timers m' = timers m.
Proof. unfold send. by destruct (isConnected m && _). Qed.

Lemma handleOpen_fields m :
  let m' := handleOpen m in
  ws m' = ws m /\ isConnected m' = true /\ reconnectAttempts m' = 0%nat /\
  maxReconnectAttempts m' = maxReconnectAttempts m /\
  reconnectDelay m' = reconnectDelay m /\ timers m' = timers m.
Proof.
  unfold handleOpen.
  pose proof (send_fields
    (user_join (userId (set_reconnectAttempts 0 (set_isConnected true m)))
               (userName (set_reconnectAttempts 0 (set_isConnected true m)))
               (userColor (set_reconnectAttempts 0 (set_isConnected true m))))
    (set_reconnectAttempts 0 (set_isConnected true m))) as H.
  simpl in H. simpl. exact H.
Qed.

Lemma step_inv e m m' : conn_inv m -> step e m = Some m' -> conn_inv m'.
Proof.
  intros (Hmax & Hdelay & Hle & Hcases) Hstep. destruct e; simpl in Hstep.
  - destruct (ws m) as [[|n]|] eqn:Hws; try done. injection Hstep as <-.
    pose proof (handleOpen_fields (set_ws (Some 1%nat) m))
      as (H1 & H2 & H3 & H4 & H5 & H6).
    unfold conn_inv. rewrite H1, H2, H3, H4, H5, H6. cbn [set_ws ws
      maxReconnectAttempts reconnectDelay timers].
    repeat split; try done; try lia. right; left.
    destruct Hcases as [[_ Ht]|[[? _]|[[? _]|[? _]]]]; by simplify_eq.
  - assert (Hlive : ws m = Some 0%nat \/ ws m = Some 1%nat).
    { destruct Hcases as [[? _]|[[? _]|[[Hc _]|[Hc _]]]]; try tauto;
        rewrite Hc in Hstep; done. }
    assert (Ht : timers m = []).
    { destruct Hcases as [[_ ?]|[(_ & ? & _)|[[Hc _]|[Hc _]]]]; try done;
        destruct Hlive; congruence. }
    assert (m' = handleClose (set_ws (Some 3%nat) m)) as ->.
    { destruct Hlive as [Hc|Hc]; rewrite Hc in Hstep; by injection Hstep. }
    unfold handleClose, attemptReconnect. simpl. rewrite Hmax.
    case_decide; unfold conn_inv; simpl; rewrite ?Hmax, ?Hdelay, ?Ht.
    + repeat split; try done; try lia. right; right; left.
      repeat split; try done; lia.
    + repeat split; try done. right; right; right. repeat split; try done; lia.
  - destruct (timers m) as [|d rest] eqn:Ht; [done|]. injection Hstep as <-.
    unfold conn_inv. simpl. repeat split; try done. left.
    destruct Hcases as [[_ ?]|[(_ & ? & _)|[(_ & ? & _)|(_ & ? & _)]]];
      by simplify_eq.
Qed.

Lemma steps_inv es : forall m m', conn_inv m -> steps es m = Some m' -> conn_inv m'.
Proof.
  induction es as [|e es IH]; intros m m' Hinv Hsteps; simpl in Hsteps.
  - by injection Hsteps as <-.
  - destruct (step e m) as [m1|] eqn:Hstep; [|done].
    eapply IH; [|exact Hsteps]. by eapply step_inv.
Qed.

Lemma attempts_left_bound m : conn_inv m -> (attempts_left m <= 5)%nat.
Proof.
  intros (_ & _ & Hle & Hcases). unfold attempts_left.
  destruct Hcases as [[_ Ht]|[(_ & Ht & _)|[(_ & Ht & ?)|(_ & Ht & _)]]];
    rewrite Ht; simpl; lia.
Qed.

Lemma step_attempts_left e m m' :
  conn_inv m -> e <> SocketOpen -> step e m = Some m' ->
  ((if decide (e = TimerFire) then 1 else 0) + attempts_left m' <= attempts_left m)%nat.
Proof.
  intros (Hmax & Hdelay & Hle & Hcases) Hne Hstep. destruct e; [done| |];
    simpl in Hstep.
  - rewrite decide_False by done.
    assert (m' = handleClose (set_ws (Some 3%nat) m)) as ->.
    { destruct (ws m) as [[|[|[|n]]]|]; try done; by injection Hstep. }
    unfold handleClose, attemptReconnect, attempts_left. simpl. rewrite Hmax.
    case_decide; simpl; [rewrite length_app; simpl|]; lia.
  - rewrite decide_True by done.
    destruct (timers m) as [|d rest] eqn:Ht; [done|]. injection Hstep as <-.
    unfold attempts_left. simpl. rewrite Ht. simpl. lia.
Qed.

Lemma steps_timer_fires es : forall m m',
  conn_inv m -> ~ In SocketOpen es -> steps es m = Some m' ->
  (count_occ SocketEvent_eq_dec es TimerFire + attempts_left m' <= attempts_left m)%nat.
Proof.
  induction es as [|e es IH]; intros m m' Hinv Hno Hsteps; simpl in Hsteps.
  - injection Hsteps as <-. simpl. lia.
  - destruct (step e m) as [m1|] eqn:Hstep; [|done].
    assert (Hne : e <> SocketOpen) by (intros ->; apply Hno; by left).
    pose proof (step_attempts_left e m m1 Hinv Hne Hstep) as H1.
    assert (Hno' : ~ In SocketOpen es) by (intros ?; apply Hno; by right).
    pose proof (IH m1 m' (step_inv _ _ _ Hinv Hstep) Hno' Hsteps) as H2.
    simpl. destruct (SocketEvent_eq_dec e TimerFire) as [->|Hd].
    + rewrite decide_True in H1 by done. lia.
    + rewrite decide_False in H1 by done. lia.
Qed.

(** C9. From the constructor on: (1) a close in the Joined state
    schedules one reconnect, 3000 ms later; (2) in a run of events without
    a successful open at most 5 reconnect attempts fire; (3) a successful
    open gives the Joined state with the attempt counter at zero; (4) a
    close that finds the counter at the ceiling of 5 schedules nothing and
    leaves a state in which no event can happen any more. *)
Theorem reconnect_policy uid name color now :
  let m0 := new_WebSocketManager uid name color now in
  (forall es m, steps es m0 = Some m -> Joined m ->
     exists m', step SocketClose m = Some m' /\
                ws m' = Some 3%nat /\ isConnected m' = false /\
                timers m' = [3000%Z] /\ reconnectAttempts m' = 1%nat) /\
  (forall es m es' m',
     steps es m0 = Some m -> steps es' m = Some m' -> ~ In SocketOpen es' ->
     (count_occ SocketEvent_eq_dec es' TimerFire <= 5)%nat) /\
  (forall es m m',
     steps es m0 = Some m -> step SocketOpen m = Some m' ->
     Joined m' /\ reconnectAttempts m' = 0%nat) /\
  (forall es m m',
     steps es m0 = Some m -> reconnectAttempts m = 5%nat ->
     step SocketClose m = Some m' ->
     timers m' = [] /\ forall e, step e m' = None).
Proof.
  intros m0.
  assert (Hreach : forall es m, steps es m0 = Some m -> conn_inv m).
  { intros es m. apply steps_inv, new_WebSocketManager_inv. }
  split; [|split; [|split]].
  - intros es m Hsteps [Hws Hconn].
    destruct (Hreach _ _ Hsteps) as (Hmax & Hdelay & _ & Hcases).
    assert (Hjoined : timers m = [] /\ reconnectAttempts m = 0%nat).
    { destruct Hcases as [[? _]|[(_ & ? & ? & _)|[[? _]|[? _]]]];
        by simplify_eq. }
    destruct Hjoined as [Ht Ha]. eexists. split; [simpl; by rewrite Hws|].
    unfold handleClose, attemptReconnect. simpl. rewrite Hmax, Ha.
    rewrite decide_True by lia. simpl. by rewrite Ht, Hdelay.
  - intros es m es' m' Hsteps Hsteps' Hno.
    pose proof (Hreach _ _ Hsteps) as Hinv.
    pose proof (steps_timer_fires es' m m' Hinv Hno Hsteps').
    pose proof (attempts_left_bound m Hinv). lia.
  - intros es m m' _ Hstep. simpl in Hstep.
    destruct (ws m) as [[|n]|]; try done. injection Hstep as <-.
    pose proof (handleOpen_fields (set_ws (Some 1%nat) m))
      as (H1 & H2 & H3 & _). by repeat split.
  - intros es m m' Hsteps Ha Hstep.
    destruct (Hreach _ _ Hsteps) as (Hmax & Hdelay & _ & Hcases).
    assert (Hconn : ws m = Some 0%nat /\ timers m = []).
    { destruct Hcases as [?|[(? & _ & ? & _)|[[Hc _]|[Hc _]]]]; try done;
        try lia; simpl in Hstep; rewrite Hc in Hstep; done. }
    destruct Hconn as [Hws Ht]. simpl in Hstep. rewrite Hws in Hstep.
    injection Hstep as <-.
    unfold handleClose, attemptReconnect. simpl. rewrite Hmax, Ha.
    rewrite decide_False by lia. simpl. split; [done|].
    intros []; simpl; by rewrite ?Ht.
Qed.

(** The first close after the first open. *)
Lemma reconnect_policy_witness :
  steps [SocketOpen] (new_WebSocketManager "u" "User-u" "#FF6B6B" 0)
    = Some joined_manager /\
  Joined joined_manager /\
  exists m', step SocketClose joined_manager = Some m' /\
             ws m' = Some 3%nat /\ isConnected m' = false /\
             timers m' = [3000%Z] /\ reconnectAttempts m' = 1%nat.
Proof.
  split; [reflexivity|]. split; [split; reflexivity|].
  exact (proj1 (reconnect_policy "u" "User-u" "#FF6B6B" 0)
               [SocketOpen] joined_manager eq_refl (conj eq_refl eq_refl)).
Defined.

End Reconnect.

(** * Further properties of the code *)

(** ** Room registry and room members *)

Section RoomRegistry.

Lemma jsmap_get_delete_eq {V} (k : string) (m : list (string * V)) :
  jsmap_get k (jsmap_delete k m) = None.
Proof.
  induction m as [|[k' v'] m IH]; simpl; [done|].
  destruct (decide (k' = k)) as [->|Hne]; simpl; [done|].
  by rewrite decide_False.
Qed.

Lemma jsmap_get_delete_ne {V} (k k0 : string) (m : list (string * V)) :
  k <> k0 -> jsmap_get k0 (jsmap_delete k m) = jsmap_get k0 m.
Proof.
  intros Hne. induction m as [|[k' v'] m IH]; simpl; [done|].
  destruct (decide (k' = k)) as [->|Hne']; simpl.
  - by rewrite decide_False.
  - by destruct (decide (k' = k0)).
Qed.

Lemma jsmap_delete_absent {V} (k : string) (m : list (string * V)) :
  jsmap_get k m = None -> jsmap_delete k m = m.
Proof.
  induction m as [|[k' v'] m IH]; simpl; [done|].
  destruct (decide (k' = k)); [done|]. intros H. by rewrite IH.
Qed.

Lemma jsmap_set_fresh {V} (k : string) (v : V) (m : list (string * V)) :
  jsmap_get k m = None -> jsmap_set k v m = m ++ [(k, v)].
Proof.
  induction m as [|[k' v'] m IH]; simpl; [done|].
  destruct (decide (k' = k)); [done|]. intros H. by rewrite IH.
Qed.


Lemma jsmap_delete_set_fresh {V} (k : string) (v : V) (m : list (string * V)) :
  jsmap_get k m = None -> jsmap_delete k (jsmap_set k v m) = m.
Proof.
  induction m as [|[k' v'] m IH]; simpl.
  - by rewrite decide_True.
  - destruct (decide (k' = k)) as [->|Hne]; [done|]. intros H. simpl.
    rewrite decide_False by done. by rewrite IH.
Qed.

(** X1. [getOrCreateRoom] is idempotent: the first call for an id creates
    an empty room, every later call returns the room already registered
    and leaves the registry alone; rooms under other ids are never
    touched. *)
Theorem getOrCreateRoom_idempotent id now now' rooms :
  let rooms1 := fst (getOrCreateRoom id now rooms) in
  let r1 := snd (getOrCreateRoom id now rooms) in
  getOrCreateRoom id now' rooms1 = (rooms1, r1) /\
  jsmap_get id rooms1 = Some r1 /\
  (jsmap_get id rooms = None ->
     getUsers r1 = [] /\ getDrawingHistory r1 = [] /\ roomId r1 = id) /\
  (forall r, jsmap_get id rooms = Some r -> rooms1 = rooms /\ r1 = r) /\
  (forall id', id <> id' -> jsmap_get id' rooms1 = jsmap_get id' rooms).
Proof.
  unfold getOrCreateRoom.
  destruct (jsmap_get id rooms) as [r|] eqn:Hget; simpl.
  - rewrite Hget. repeat split; try done; congruence.
  - rewrite jsmap_get_set_eq. repeat split; try done.
    intros id' Hne. by apply jsmap_get_set_ne.
Qed.

Lemma getOrCreateRoom_idempotent_witness :
  jsmap_get "lobby"%string [("default"%string, new_Room "default" 1)] = None /\
  getUsers (snd (getOrCreateRoom "lobby" 2
                   [("default"%string, new_Room "default" 1)])) = [].
Proof.
  split; [reflexivity|].
  exact (proj1 (proj1 (proj2 (proj2
           (getOrCreateRoom_idempotent "lobby" 2 3
              [("default"%string, new_Room "default" 1)]))) eq_refl)).
Defined.



(** X3. [removeUser] never fails: an unknown id leaves the room as it is,
    a known id is gone afterwards, the other members stay, and removing a
    user who has just been added to a room that did not have him gives the
    room back. *)
Theorem removeUser_absent_is_noop uid r :
  (jsmap_get uid (users r) = None -> removeUser uid r = r) /\
  jsmap_get uid (users (removeUser uid r)) = None /\
  (forall uid', uid <> uid' ->
     jsmap_get uid' (users (removeUser uid r)) = jsmap_get uid' (users r)) /\
  (forall d, jsmap_get uid (users r) = None ->
     removeUser uid (addUser uid d r) = r).
Proof.
  destruct r as [rid us h mx ca]. unfold removeUser, addUser, set_users. simpl.
  split; [|split; [|split]].
  - intros H. by rewrite jsmap_delete_absent.
  - apply jsmap_get_delete_eq.
  - intros uid' Hne. by apply jsmap_get_delete_ne.
  - intros d H. by rewrite jsmap_delete_set_fresh.
Qed.

Lemma removeUser_absent_is_noop_witness :
  removeUser "ghost" (new_Room "default" 0) = new_Room "default" 0.
Proof.
  exact (proj1 (removeUser_absent_is_noop "ghost" (new_Room "default" 0)) eq_refl).
Defined.

Lemma addDrawingOperation_users now ops r :
  users (addDrawingOperation now ops r) = users r.
Proof. unfold addDrawingOperation. by case_decide. Qed.

(** X4. One [addDrawingOperation] call: while the cap is not exceeded the
    new operations are appended, stamped, and nothing is evicted; once it
    is exceeded the log holds exactly [maxHistorySize] entries, the newest
    ones; the members of the room are never touched. *)
Theorem addDrawingOperation_eviction now ops r :
  ((length (drawingHistory r) + length ops <= maxHistorySize r)%nat ->
     getDrawingHistory (addDrawingOperation now ops r)
     = drawingHistory r ++ stamped now ops) /\
  (maxHistorySize r <> 0%nat ->
   (maxHistorySize r < length (drawingHistory r) + length ops)%nat ->
     length (getDrawingHistory (addDrawingOperation now ops r)) = maxHistorySize r /\
     getDrawingHistory (addDrawingOperation now ops r)
     = drop (length (drawingHistory r) + length ops - maxHistorySize r)
            (drawingHistory r ++ stamped now ops)) /\
  users (addDrawingOperation now ops r) = users r.
Proof.
  assert (Hlen : length (stamped now ops) = length ops).
  { unfold stamped. by rewrite length_imap. }
  unfold addDrawingOperation, getDrawingHistory.
  rewrite forEach_push_stamped, length_app, Hlen.
  split; [|split].
  - intros Hle. by rewrite decide_False by lia.
  - intros Hn Hgt. rewrite decide_True by lia. simpl.
    rewrite slice_from_end_length by done. rewrite length_app, Hlen.
    split; [lia|]. destruct (maxHistorySize r); [done|]. simpl.
    by rewrite length_app, Hlen.
  - by case_decide.
Qed.

Lemma addDrawingOperation_eviction_witness :
  getDrawingHistory (addDrawingOperation (fun _ => 9%Z) [oob_op] (new_Room "default" 0))
  = [stamp 9 oob_op].
Proof.
  exact (proj1 (addDrawingOperation_eviction (fun _ => 9%Z) [oob_op]
                  (new_Room "default" 0)) ltac:(simpl; lia)).
Defined.

End RoomRegistry.

(** ** Connection registry and fan-out *)

Section ConnectionRegistry.

(** X5. [userConnections]: a connection that was added is found again, a
    removed one is not, and neither operation disturbs the entry of
    another user. *)
Theorem userConnections_round_trip uid d uc :
  getUserConnection uid (addUserConnection uid d uc) = Some d /\
  getUserConnection uid (removeUserConnection uid uc) = None /\
  (forall uid', uid <> uid' ->
     getUserConnection uid' (addUserConnection uid d uc) = getUserConnection uid' uc /\
     getUserConnection uid' (removeUserConnection uid uc) = getUserConnection uid' uc).
Proof.
  unfold getUserConnection, addUserConnection, removeUserConnection.
  split; [apply jsmap_get_set_eq|]. split; [apply jsmap_get_delete_eq|].
  intros uid' Hne. split; [by apply jsmap_get_set_ne | by apply jsmap_get_delete_ne].
Qed.

Lemma userConnections_round_trip_witness :
  getUserConnection "b" (removeUserConnection "a" three_registered)
  = getUserConnection "b" three_registered.
Proof.
  exact (proj2 (proj2 (proj2 (userConnections_round_trip "a"
           (mkConnectionData 0 "a" (mkUserData "a" "User-a" "#FF6B6B" 5) "default")
           three_registered)) "b"%string ltac:(discriminate))).
Defined.





End ConnectionRegistry.

(** ** Further server handlers *)

Section ServerHandlers2.

Lemma with_room_other room now f st k :
  room <> k ->
  jsmap_get k (rooms (fst (with_room room now f st))) = jsmap_get k (rooms st).
Proof.
  intros Hne. unfold with_room, getOrCreateRoom.
  destruct (jsmap_get room (rooms st)); simpl;
    by rewrite ?jsmap_get_set_ne by done.
Qed.

Lemma with_room_log room now f st :
  (forall r, getDrawingHistory (f r) = getDrawingHistory r) ->
  forall k, room_log k (fst (with_room room now f st)) = room_log k st.
Proof.
  intros Hf k. unfold room_log at 1.
  destruct (decide (room = k)) as [<-|Hne].
  - destruct (with_room_spec room now f st) as (_ & -> & _).
    by rewrite Hf, room_or_new_log.
  - by rewrite with_room_other.
Qed.

Lemma with_room_participants room now f st :
  (forall r, users (f r) = users r) ->
  forall k, room_participants k (fst (with_room room now f st))
            = room_participants k st.
Proof.
  intros Hf k. unfold room_participants at 1.
  destruct (decide (room = k)) as [<-|Hne].
  - destruct (with_room_spec room now f st) as (_ & -> & _).
    rewrite Hf. unfold room_or_new, room_participants.
    by destruct (jsmap_get room (rooms st)).
  - by rewrite with_room_other.
Qed.

(** X7. [ping] and [canvas_sync] are answered to the requesting socket
    alone, whether or not it has joined: [ping] with [pong] and no other
    change, [canvas_sync] with the whole log of the connection's room; no
    log and no participant list changes, and nobody else is sent
    anything. *)
Theorem ping_and_sync_reply_to_requester st i c now stamps :
  conns st !! i = Some c ->
  (let st' := on_message i ping now stamps st in
   sent st' = sent st ++ [(i, pong)] /\
   rooms st' = rooms st /\ userConnections st' = userConnections st /\
   conns st' = conns st) /\
  (let st' := on_message i canvas_sync now stamps st in
   sent st' = sent st
              ++ [(i, sync_complete_canvas (room_log (cl_roomId c) st) now)] /\
   (forall room, room_log room st' = room_log room st) /\
   (forall room, room_participants room st' = room_participants room st) /\
   userConnections st' = userConnections st /\ conns st' = conns st).
Proof.
  intros Hc. split; [done|]. simpl. unfold handleCanvasSync. rewrite Hc.
  pose proof (with_room_spec (cl_roomId c) now (fun r => r) st)
    as (Hr & _ & Huc & Hconns & Hsent).
  pose proof (with_room_log (cl_roomId c) now (fun r => r) st
                ltac:(done)) as Hlog.
  pose proof (with_room_participants (cl_roomId c) now (fun r => r) st
                ltac:(done)) as Hpart.
  destruct (with_room (cl_roomId c) now (fun r => r) st) as [st1 room_].
  simpl in *. subst room_.
  rewrite Hsent, room_or_new_log. done.
Qed.

Lemma ping_and_sync_reply_to_requester_witness :
  sent (on_message 1 canvas_sync 8 no_stamps one_joined)
  = sent one_joined ++ [(1%nat, sync_complete_canvas [] 8)].
Proof.
  exact (proj1 (proj2 (ping_and_sync_reply_to_requester one_joined 1
           (mkConnection (mkClient 1 None) "default" None None) 8 no_stamps
           eq_refl))).
Defined.

(** X8. A cursor position is relayed and never stored: on an active
    connection [cursor_move] sends the position, tagged with the sender's
    user id, to the other members of the room and not to the sender, and
    the registry of rooms is left as it was. *)
Theorem cursor_move_relayed_not_logged st i c u x y timestamp now stamps :
  conns st !! i = Some c ->
  cl_userId c = Some u ->
  ws_userId (sock c) = Some u ->
  u <> ""%string ->
  let st' := on_message i (cursor_move x y timestamp) now stamps st in
  let relay := broadcastToRoom (cl_roomId c) (cursor_move_bcast u x y timestamp)
                               (wss st) (Some u) (userConnections st) in
  sent st' = sent st ++ relay /\
  (forall m, ~ In (i, m) relay) /\
  rooms st' = rooms st /\ userConnections st' = userConnections st /\
  conns st' = conns st.
Proof.
  intros Hc Hu Hws Hne st' relay. subst st' relay. simpl.
  unfold handleCursorMove. rewrite Hc, Hu. unfold truthy.
  rewrite bool_decide_eq_true_2 by done. simpl.
  repeat split; try done.
  intros m Hin.
  apply broadcastToRoom_In in Hin as (_ & c' & Hj & _ & _ & Hex).
  unfold wss in Hj. rewrite list_lookup_fmap, Hc in Hj. simpl in Hj.
  injection Hj as <-. by apply (Hex u).
Qed.

Lemma cursor_move_relayed_not_logged_witness :
  sent (on_message 0 (cursor_move 3 4 77) 10 no_stamps two_joined)
  = sent two_joined ++ [(1%nat, cursor_move_bcast "a" 3 4 77)] /\
  rooms (on_message 0 (cursor_move 3 4 77) 10 no_stamps two_joined)
  = rooms two_joined.
Proof.
  pose proof (cursor_move_relayed_not_logged two_joined 0
                (mkConnection (mkClient 1 (Some "a"%string)) "default"
                   (Some "a"%string) (Some (mkUserData "a" "User-a" "#FF6B6B" 5)))
                "a" 3 4 77 10 no_stamps eq_refl eq_refl eq_refl
                ltac:(discriminate)) as (H1 & _ & H2 & _).
  split; [exact H1 | exact H2].
Defined.

(** X9. A [drawing] message whose [operations] is missing or not an array
    is dropped even on an active connection: nothing is logged and nothing
    is sent. *)
Theorem drawing_without_array_dropped st i now stamps timestamp :
  let st' := on_message i (drawing None timestamp) now stamps st in
  sent st' = sent st /\
  (forall room, room_log room st' = room_log room st) /\
  (forall room, room_participants room st' = room_participants room st) /\
  userConnections st' = userConnections st /\ conns st' = conns st.
Proof.
  simpl. unfold handleDrawing.
  destruct (conns st !! i) as [c|]; [|done].
  destruct (cl_userId c) as [u|]; [|done].
  destruct (truthy (Some u)); [|done].
  pose proof (with_room_spec (cl_roomId c) now (fun r => r) st)
    as (_ & _ & Huc & Hconns & Hsent).
  repeat split; try done.
  - by apply with_room_log.
  - by apply with_room_participants.
Qed.

Lemma jsmap_keys_delete {V} (k : string) (m : list (string * V)) :
  ~ In k (jsmap_keys (jsmap_delete k m)).
Proof.
  unfold jsmap_keys. induction m as [|[k' v'] m IH]; simpl; [tauto|].
  destruct (decide (k' = k)); [done|]. simpl. tauto.
Qed.

(** X10. Disconnect.  When an open socket that never joined closes, only
    its [readyState] changes.  When a joined one closes, its user leaves
    the room and the connection registry, and [user_left] goes to the
    members still open, never to the closed socket. *)
Theorem close_removes_participant st i c now :
  conns st !! i = Some c ->
  readyState (sock c) = 1%nat ->
  let st' := deliver (Close i now) st in
  is_open i st' = false /\
  (cl_userId c = None ->
     rooms st' = rooms st /\ userConnections st' = userConnections st /\
     sent st' = sent st) /\
  (forall u, cl_userId c = Some u -> u <> ""%string ->
     let notice := broadcastToRoom (cl_roomId c)
                     (user_left u (userName_or_Unknown (cl_userData c)))
                     (wss (close_socket i st)) None (userConnections st) in
     ~ In u (room_participants (cl_roomId c) st') /\
     getUserConnection u (userConnections st') = None /\
     sent st' = sent st ++ notice /\
     (forall m, ~ In (i, m) notice) /\
     (forall room, room_log room st' = room_log room st)).
Proof.
  intros Hc Hopen st'. subst st'. cbn [deliver].
  assert (Hio : is_open i st = true).
  { unfold is_open. by rewrite Hc, bool_decide_eq_true_2. }
  rewrite Hio.
  assert (Hc' : conns (close_socket i st) !! i
                = Some (mkConnection (mkClient 3 (ws_userId (sock c)))
                          (cl_roomId c) (cl_userId c) (cl_userData c))).
  { unfold close_socket. simpl.
    rewrite list_lookup_alter, decide_True by done. by rewrite Hc. }
  unfold on_close. rewrite Hc'. cbn [cl_userId cl_roomId cl_userData].
  split; [|split].
  - assert (Hclosed : forall s, conns s = conns (close_socket i st) ->
                                is_open i s = false).
    { intros s Hs. unfold is_open. by rewrite Hs, Hc'. }
    destruct (cl_userId c) as [u|]; [|by apply Hclosed].
    destruct (truthy (Some u)); [|by apply Hclosed].
    pose proof (with_room_spec (cl_roomId c) now (removeUser u) (close_socket i st))
      as (_ & _ & _ & Hconns & _).
    destruct (with_room (cl_roomId c) now (removeUser u) (close_socket i st))
      as [st1 r1]. simpl in *. by apply Hclosed.
  - intros Hnone. by rewrite Hnone.
  - intros u Hu Hne. rewrite Hu. unfold truthy.
    rewrite bool_decide_eq_true_2 by done.
    pose proof (with_room_spec (cl_roomId c) now (removeUser u) (close_socket i st))
      as (_ & Hget & Huc & Hconns & Hsent).
    pose proof (with_room_log (cl_roomId c) now (removeUser u) (close_socket i st)
                  ltac:(done)) as Hlog.
    destruct (with_room (cl_roomId c) now (removeUser u) (close_socket i st))
      as [st1 r1]. simpl in *.
    split; [|split; [|split; [|split]]].
    + unfold room_participants. simpl. rewrite Hget. simpl.
      apply jsmap_keys_delete.
    + unfold getUserConnection, removeUserConnection. apply jsmap_get_delete_eq.
    + unfold wss. by rewrite Hsent, Hconns, Huc.
    + intros m Hin.
      apply broadcastToRoom_In in Hin as (_ & c' & Hj & Hr & _).
      unfold wss in Hj. simpl in Hj.
      rewrite list_lookup_fmap, list_lookup_alter, decide_True, Hc in Hj by done.
      simpl in Hj.
      injection Hj as <-. simpl in Hr. discriminate.
    + intros room. apply Hlog.
Qed.

Lemma close_removes_participant_witness :
  sent (deliver (Close 0 9) two_joined)
  = sent two_joined ++ [(1%nat, user_left "a" "User-a")] /\
  ~ In "a"%string (room_participants "default" (deliver (Close 0 9) two_joined)).
Proof.
  pose proof (proj2 (proj2 (close_removes_participant two_joined 0
                (mkConnection (mkClient 1 (Some "a"%string)) "default"
                   (Some "a"%string) (Some (mkUserData "a" "User-a" "#FF6B6B" 5)))
                9 eq_refl eq_refl)) "a"%string eq_refl ltac:(discriminate))
    as (H1 & _ & H2 & _).
  split; [exact H2 | exact H1].
Defined.

End ServerHandlers2.

(** ** Participants of a room and open connections *)

Section Participants.

Lemma jsmap_get_None_keys {V} (k : string) (m : list (string * V)) :
  jsmap_get k m = None <-> ~ In k (jsmap_keys m).
Proof.
  unfold jsmap_keys. induction m as [|[k' v'] m IH]; simpl; [tauto|].
  destruct (decide (k' = k)); [split; [done | tauto]|]. rewrite IH. tauto.
Qed.

Lemma jsmap_keys_set_fresh {V} (k : string) (v : V) (m : list (string * V)) :
  ~ In k (jsmap_keys m) -> jsmap_keys (jsmap_set k v m) = jsmap_keys m ++ [k].
Proof.
  intros H. apply jsmap_get_None_keys in H. rewrite jsmap_set_fresh by done.
  unfold jsmap_keys. by rewrite map_app.
Qed.

Lemma jsmap_keys_delete_perm {V} (k : string) (m : list (string * V)) :
  NoDup (jsmap_keys m) -> In k (jsmap_keys m) ->
  jsmap_keys m ≡ₚ k :: jsmap_keys (jsmap_delete k m).
Proof.
  induction m as [|[k' v'] m IH]; simpl; [done|].
  intros Hnd Hin. apply NoDup_cons in Hnd as [Hnotin Hnd].
  destruct (decide (k' = k)) as [->|Hne].
  - rewrite jsmap_delete_absent; [done|].
    apply jsmap_get_None_keys. by rewrite <- list_elem_of_In.
  - destruct Hin as [?|Hin]; [done|]. simpl.
    rewrite (IH Hnd Hin) at 1. apply perm_swap.
Qed.

Lemma jsmap_keys_delete_absent {V} (k : string) (m : list (string * V)) :
  ~ In k (jsmap_keys m) -> jsmap_keys (jsmap_delete k m) = jsmap_keys m.
Proof.
  intros H. apply jsmap_get_None_keys in H. by rewrite jsmap_delete_absent.
Qed.

Lemma jsmap_keys_delete_NoDup {V} (k : string) (m : list (string * V)) :
  NoDup (jsmap_keys m) -> NoDup (jsmap_keys (jsmap_delete k m)).
Proof.
  induction m as [|[k' v'] m IH]; simpl; [done|].
  intros Hnd. apply NoDup_cons in Hnd as [Hnotin Hnd].
  destruct (decide (k' = k)); [by apply IH|]. simpl.
  apply NoDup_cons. split; [|by apply IH].
  intros Hin. apply Hnotin. clear -Hin. unfold jsmap_keys in *.
  induction m as [|[k0 v0] m IH]; simpl in *; [done|].
  destruct (decide (k0 = k)).
  - right. by apply IH.
  - apply elem_of_cons in Hin as [->|Hin]; [left | right; by apply IH].
Qed.

Section Omap.
Context {A B : Type} (f : A -> option B).

Lemma omap_insert_same (l : list A) i c c' :
  l !! i = Some c -> f c' = f c -> omap f (<[i:=c']> l) = omap f l.
Proof.
  revert i. induction l as [|a l IH]; intros [|i] Hi Hf; simpl in *;
    change (list_omap A B f) with (omap (M:=list) f) in *; try done.
  - injection Hi as ->. by rewrite Hf.
  - by rewrite (IH i).
Qed.

Lemma omap_insert_join (l : list A) i c c' u :
  l !! i = Some c -> f c = None -> f c' = Some u ->
  omap f (<[i:=c']> l) ≡ₚ u :: omap f l.
Proof.
  revert i. induction l as [|a l IH]; intros [|i] Hi Hc Hc'; simpl in *;
    change (list_omap A B f) with (omap (M:=list) f) in *; try done.
  - injection Hi as ->. by rewrite Hc, Hc'.
  - destruct (f a) as [b|]; [|by apply IH].
    rewrite (IH i Hi Hc Hc'). apply perm_swap.
Qed.

Lemma omap_insert_leave (l : list A) i c c' u :
  l !! i = Some c -> f c = Some u -> f c' = None ->
  omap f l ≡ₚ u :: omap f (<[i:=c']> l).
Proof.
  revert i. induction l as [|a l IH]; intros [|i] Hi Hc Hc'; simpl in *;
    change (list_omap A B f) with (omap (M:=list) f) in *; try done.
  - injection Hi as ->. by rewrite Hc, Hc'.
  - destruct (f a) as [b|]; [|by apply IH].
    rewrite (IH i Hi Hc Hc') at 1. apply perm_swap.
Qed.

Lemma list_alter_as_insert (g : A -> A) (l : list A) i c :
  l !! i = Some c -> alter g i l = <[i:=g c]> l.
Proof.
  revert i. induction l as [|a l IH]; intros [|i] Hi; simpl in *; try done.
  - by injection Hi as ->.
  - f_equal. by apply IH.
Qed.
End Omap.

Lemma room_participants_or_new room now st :
  room_participants room st = jsmap_keys (users (room_or_new room now st)).
Proof.
  unfold room_participants, room_or_new. by destruct (jsmap_get room (rooms st)).
Qed.

Lemma with_room_participants_same room now f st :
  room_participants room (fst (with_room room now f st))
  = jsmap_keys (users (f (room_or_new room now st))).
Proof.
  unfold room_participants.
  by destruct (with_room_spec room now f st) as (_ & -> & _).
Qed.

Lemma synced_ext st st' :
  conns st' = conns st ->
  room_participants "default" st' = room_participants "default" st ->
  synced st -> synced st'.
Proof.
  unfold synced, open_participants. intros -> ->. done.
Qed.

Lemma on_message_unjoining_synced i m now stamps st :
  (forall uid name color, m <> user_join uid name color) ->
  synced st -> synced (on_message i m now stamps st).
Proof.
  intros Hm Hs. destruct m as [uid name color|ops ts|x y ts| | |]; simpl.
  - by destruct (Hm uid name color).
  - unfold handleDrawing. destruct (conns st !! i) as [c|]; [|done].
    destruct (cl_userId c) as [u|]; [|done].
    destruct (truthy (Some u)); [|done].
    destruct ops as [ops|].
    + pose proof (with_room_spec (cl_roomId c) now (addDrawingOperation stamps ops) st)
        as (_ & _ & _ & Hconns & _).
      pose proof (with_room_participants (cl_roomId c) now
                    (addDrawingOperation stamps ops) st
                    (addDrawingOperation_users stamps ops)
                    "default"%string) as Hp.
      destruct (with_room (cl_roomId c) now (addDrawingOperation stamps ops) st)
        as [st1 r1]. simpl in *. by apply (synced_ext st).
    + pose proof (with_room_spec (cl_roomId c) now (fun r => r) st)
        as (_ & _ & _ & Hconns & _).
      apply (synced_ext st); [done| |done].
      by apply with_room_participants.
  - unfold handleCursorMove. destruct (conns st !! i) as [c|]; [|done].
    destruct (cl_userId c) as [u|]; [|done].
    by destruct (truthy (Some u)).
  - done.
  - unfold handleCanvasSync. destruct (conns st !! i) as [c|]; [|done].
    pose proof (with_room_spec (cl_roomId c) now (fun r => r) st)
      as (_ & _ & _ & Hconns & _).
    pose proof (with_room_participants (cl_roomId c) now (fun r => r) st
                  ltac:(done) "default"%string) as Hp.
    destruct (with_room (cl_roomId c) now (fun r => r) st) as [st1 r1].
    simpl in *. by apply (synced_ext st).
  - done.
Qed.

Lemma In_insert {A} (l : list A) i x y :
  In y (<[i:=x]> l) -> y = x \/ In y l.
Proof.
  revert i. induction l as [|a l IH]; intros [|i]; simpl; try tauto.
  - intros [->|?]; tauto.
  - intros [?|H]; [tauto|]. destruct (IH i H); tauto.
Qed.

Lemma join_synced i uid name color now st :
  is_open i st = true ->
  disciplined (Message i (user_join uid name color) now no_stamps) st ->
  synced st -> synced (handleUserJoin i uid name color now st).
Proof.
  unfold is_open. intros Hopen (Hne & Hunjoined & Hfresh) (HA & Hnd & Hperm).
  unfold handleUserJoin.
  destruct (conns st !! i) as [c|] eqn:Hc; [|done].
  apply bool_decide_eq_true in Hopen.
  specialize (Hunjoined c eq_refl).
  destruct (HA c) as (Hroom & _ & _).
  { apply list_elem_of_In. by eapply list_elem_of_lookup_2. }
  rewrite Hroom in *.
  pose proof (with_room_spec "default" now
                (addUser uid (mkUserData uid name color now)) st)
    as (_ & _ & _ & Hconns & _).
  pose proof (with_room_participants_same "default" now
                (addUser uid (mkUserData uid name color now)) st) as Hp.
  destruct (with_room "default" now (addUser uid (mkUserData uid name color now)) st)
    as [st1 r1]. cbn [fst] in Hconns, Hp.
  assert (Hkeys : room_participants "default" st1
                  = room_participants "default" st ++ [uid]).
  { rewrite Hp. unfold addUser, set_users. cbn [users].
    rewrite (room_participants_or_new "default" now st) in Hfresh |- *.
    by apply jsmap_keys_set_fresh. }
  set (c' := mkConnection (mkClient (readyState (sock c)) (Some uid)) "default"
                          (Some uid) (Some (mkUserData uid name color now))).
  assert (Hfinal : forall s,
            conns s = <[i:=c']> (conns st) ->
            room_participants "default" s = room_participants "default" st ++ [uid] ->
            synced s).
  { intros s Hsc Hsp. unfold synced. rewrite Hsp. split; [|split].
    - intros x Hx. rewrite Hsc in Hx. apply In_insert in Hx as [->|Hx].
      + simpl. repeat split; try done. by intros [= ->].
      + by apply HA.
    - apply NoDup_app. split; [done|]. split; [|apply NoDup_singleton].
      intros x Hx Hx'. apply list_elem_of_singleton in Hx' as ->.
      apply Hfresh. by apply list_elem_of_In.
    - unfold open_participants. rewrite Hsc.
      rewrite (omap_insert_join _ (conns st) i c c' uid Hc).
      + rewrite <- Permutation_cons_append. by constructor.
      + by rewrite Hunjoined; case_decide.
      + simpl. by rewrite decide_True. }
  case_decide; apply Hfinal; simpl; by rewrite ?Hconns.
Qed.

Lemma close_synced i now st :
  synced st -> synced (deliver (Close i now) st).
Proof.
  intros (HA & Hnd & Hperm). cbn [deliver]. unfold is_open.
  destruct (conns st !! i) as [c|] eqn:Hc; [|done].
  case_bool_decide as Hopen; [|done].
  destruct (HA c) as (Hroom & Hws & Hnonempty).
  { apply list_elem_of_In. by eapply list_elem_of_lookup_2. }
  set (c' := mkConnection (mkClient 3 (ws_userId (sock c))) (cl_roomId c)
                          (cl_userId c) (cl_userData c)).
  assert (Hcs : conns (close_socket i st) = <[i:=c']> (conns st)).
  { unfold close_socket. simpl. exact (list_alter_as_insert _ (conns st) i c Hc). }
  assert (Hc' : conns (close_socket i st) !! i = Some c').
  { rewrite Hcs. apply list_lookup_insert_eq. by eapply lookup_lt_Some. }
  assert (HA' : forall x, In x (<[i:=c']> (conns st)) ->
            cl_roomId x = "default"%string /\ ws_userId (sock x) = cl_userId x /\
            cl_userId x <> Some ""%string).
  { intros x Hx. apply In_insert in Hx as [->|Hx]; [done | by apply HA]. }
  unfold on_close. rewrite Hc'. cbn [cl_userId cl_roomId cl_userData c'].
  destruct (cl_userId c) as [u|] eqn:Hu.
  - assert (Hne : u <> ""%string) by (by intros ->).
    unfold truthy. rewrite bool_decide_eq_true_2 by done. rewrite Hroom.
    pose proof (with_room_spec "default" now (removeUser u) (close_socket i st))
      as (_ & _ & _ & Hconns & _).
    pose proof (with_room_participants_same "default" now (removeUser u)
                  (close_socket i st)) as Hp.
    destruct (with_room "default" now (removeUser u) (close_socket i st))
      as [st1 r1]. cbn [fst] in Hconns, Hp.
    assert (Hold : room_participants "default" (close_socket i st)
                   = room_participants "default" st) by done.
    rewrite (room_participants_or_new "default" now) in Hold.
    unfold removeUser, set_users in Hp. cbn [users] in Hp.
    assert (Hin : In u (room_participants "default" st)).
    { apply list_elem_of_In. rewrite Hperm. unfold open_participants.
      apply list_elem_of_omap. exists c. split; [by eapply list_elem_of_lookup_2|].
      by rewrite decide_True, Hu. }
    unfold synced, open_participants. cbn [conns set_userConnections broadcast].
    rewrite Hconns, Hcs.
    change (room_participants "default"
              (set_userConnections _ (broadcast _ _ _ st1)))
      with (room_participants "default" st1).
    rewrite Hp. rewrite <- Hold in Hin, Hnd, Hperm.
    split; [done|]. split; [by apply jsmap_keys_delete_NoDup|].
    apply (Permutation_cons_inv (a := u)).
    rewrite <- jsmap_keys_delete_perm by done. rewrite Hperm.
    unfold open_participants.
    apply (omap_insert_leave _ (conns st) i c c' u Hc).
    + by rewrite decide_True, Hu.
    + subst c'. simpl.
      first [done | case_decide as Hd; [by destruct Hd | done]].
  - unfold synced, open_participants. rewrite Hcs.
    change (room_participants "default" (close_socket i st))
      with (room_participants "default" st).
    split; [done|]. split; [done|].
    rewrite Hperm. unfold open_participants.
    symmetry. erewrite omap_insert_same; [done | exact Hc |].
    subst c'. simpl. rewrite Hu. by repeat case_decide.
Qed.

(** X11. No ghosts and no omissions when clients keep to the protocol:
    in every run in which each [user_join] arrives on a connection that
    has not joined and carries a non-empty user id not yet in the room, the
    participants of the room are, up to order, the user ids of the open
    connections that joined, each once. *)
Theorem participants_match_open_connections es :
  forall st, synced st -> disciplined_run es st ->
             synced (run es st) /\
             NoDup (room_participants "default" (run es st)) /\
             room_participants "default" (run es st)
               ≡ₚ open_participants "default" (run es st).
Proof.
  assert (Hrun : forall st, synced st -> disciplined_run es st -> synced (run es st)).
  { induction es as [|e es IH]; intros st Hs Hd; [done|].
    destruct Hd as [He Hd]. apply (IH (deliver e st)); [|done].
    destruct e as [|i m now stamps|i now].
    - destruct Hs as (HA & Hnd & Hperm). unfold synced. simpl.
      split; [|split; [done|]].
      + intros c Hc. apply in_app_or in Hc as [Hc|[<-|[]]]; [by apply HA | done].
      + unfold open_participants. simpl. rewrite omap_app. simpl.
        by rewrite app_nil_r.
    - cbn [deliver]. destruct (is_open i st) eqn:Hopen; [|done].
      destruct m as [uid name color| | | | |];
        try (apply on_message_unjoining_synced; [intros; discriminate | done]).
      simpl. apply join_synced; [done| |done]. exact He.
    - by apply close_synced. }
  intros st Hs Hd. specialize (Hrun st Hs Hd).
  split; [done|]. destruct Hrun as (_ & Hnd & Hperm). by split.
Qed.

Lemma participants_match_open_connections_witness :
  synced init /\
  disciplined_run [Connect; Connect; join_a 0; join_b 1; Close 0 9] init /\
  room_participants "default" (run [Connect; Connect; join_a 0; join_b 1; Close 0 9] init)
    ≡ₚ open_participants "default"
         (run [Connect; Connect; join_a 0; join_b 1; Close 0 9] init).
Proof.
  assert (Hs : synced init).
  { split; [intros c []|]. split; [constructor | reflexivity]. }
  assert (Hd : disciplined_run [Connect; Connect; join_a 0; join_b 1; Close 0 9] init).
  { simpl. repeat split; try discriminate.
    - by intros c [= <-].
    - intros [].
    - by intros c [= <-].
    - intros [[=]|[]]. }
  split; [exact Hs|]. split; [exact Hd|].
  exact (proj2 (proj2 (participants_match_open_connections _ init Hs Hd))).
Defined.

End Participants.

(** ** Client transmission *)

Section ClientTransmission.

Lemma send_online message m :
  online m -> send message m = set_outbox (outbox m ++ [message]) m.
Proof.
  intros [Hc Hw]. unfold send. by rewrite Hc, Hw, bool_decide_eq_true_2.
Qed.

Lemma send_offline message m : ~ online m -> send message m = m.
Proof.
  intros Hoff. unfold send, online in *.
  destruct (isConnected m); simpl; [|done].
  case_bool_decide; [|done]. tauto.
Qed.

(** X12. [flushDrawingBuffer]: an empty buffer is left alone; a connected
    manager transmits the whole buffer, in order, as one [drawing] message;
    a manager that is not connected transmits nothing and still empties the
    buffer, so operations flushed while offline are lost. *)
Theorem flushDrawingBuffer_cases now m :
  (wsDrawingBuffer m = [] -> flushDrawingBuffer now m = m) /\
  (wsDrawingBuffer m <> [] -> online m ->
     outbox (flushDrawingBuffer now m)
       = outbox m ++ [drawing (Some (wsDrawingBuffer m)) now] /\
     wsDrawingBuffer (flushDrawingBuffer now m) = [] /\
     lastFlushTime (flushDrawingBuffer now m) = now) /\
  (wsDrawingBuffer m <> [] -> ~ online m ->
     outbox (flushDrawingBuffer now m) = outbox m /\
     wsDrawingBuffer (flushDrawingBuffer now m) = [] /\
     lastFlushTime (flushDrawingBuffer now m) = now).
Proof.
  unfold flushDrawingBuffer. split; [|split].
  - by intros ->.
  - intros Hne Hon. destruct (wsDrawingBuffer m) as [|o l] eqn:Hb; [done|].
    by rewrite send_online.
  - intros Hne Hoff. destruct (wsDrawingBuffer m) as [|o l] eqn:Hb; [done|].
    by rewrite send_offline.
Qed.

Lemma flushDrawingBuffer_cases_witness :
  outbox (flushDrawingBuffer 7
            (set_drawingBuffer [oob_op]
               (new_WebSocketManager "u" "User-u" "#FF6B6B" 0))) = [] /\
  wsDrawingBuffer (flushDrawingBuffer 7
            (set_drawingBuffer [oob_op]
               (new_WebSocketManager "u" "User-u" "#FF6B6B" 0))) = [].
Proof.
  pose proof (proj2 (proj2 (flushDrawingBuffer_cases 7
                (set_drawingBuffer [oob_op]
                   (new_WebSocketManager "u" "User-u" "#FF6B6B" 0))))
                ltac:(discriminate) ltac:(intros [H _]; discriminate))
    as (H1 & H2 & _).
  split; [exact H1 | exact H2].
Defined.

Lemma transmitted_ops_app m msgs :
  transmitted_ops (set_outbox (outbox m ++ msgs) m)
  = transmitted_ops m
    ++ flat_map (fun msg => match msg with
                            | drawing (Some ops) _ => ops
                            | _ => []
                            end) msgs.
Proof. unfold transmitted_ops. simpl. by rewrite flat_map_app. Qed.

Lemma sendCursorMove_online now x y m :
  online m ->
  online (sendCursorMove now x y m) /\
  transmitted_ops (sendCursorMove now x y m) = transmitted_ops m /\
  wsDrawingBuffer (sendCursorMove now x y m) = wsDrawingBuffer m.
Proof.
  intros Hon. unfold sendCursorMove. rewrite send_online by done.
  rewrite transmitted_ops_app. simpl. by rewrite app_nil_r.
Qed.

Lemma sendDrawing_online now op m :
  online m ->
  online (sendDrawing now op m) /\
  transmitted_ops (sendDrawing now op m) ++ wsDrawingBuffer (sendDrawing now op m)
  = transmitted_ops m ++ wsDrawingBuffer m ++ [op].
Proof.
  intros Hon. unfold sendDrawing. cbn [set_drawingBuffer lastFlushTime flushInterval].
  case_decide; [|done].
  unfold flushDrawingBuffer. cbn [set_drawingBuffer wsDrawingBuffer].
  destruct (wsDrawingBuffer m ++ [op]) as [|o l] eqn:Hb.
  { by apply app_nil in Hb as [_ ?]. }
  rewrite send_online by done. split; [done|].
  unfold transmitted_ops. simpl. rewrite flat_map_app. simpl.
  by rewrite !app_nil_r.
Qed.

Lemma foldl_sendDrawing_online now ops : forall m,
  online m ->
  let m' := foldl (fun m op => sendDrawing now op m) m ops in
  online m' /\
  transmitted_ops m' ++ wsDrawingBuffer m'
  = transmitted_ops m ++ wsDrawingBuffer m ++ ops.
Proof.
  induction ops as [|op ops IH]; intros m Hon; simpl.
  - by rewrite app_nil_r.
  - destruct (sendDrawing_online now op m Hon) as [Hon1 H1].
    destruct (IH _ Hon1) as [Hon2 H2]. split; [done|].
    rewrite H2, app_assoc, H1. by rewrite <- !app_assoc.
Qed.

Lemma emitDrawing_accounted now p :
  online (wsManager p) ->
  online (wsManager (emitDrawing now p)) /\
  drawingBuffer (canvas (emitDrawing now p)) = [] /\
  transmitted_ops (wsManager (emitDrawing now p))
  ++ wsDrawingBuffer (wsManager (emitDrawing now p))
  = transmitted_ops (wsManager p) ++ wsDrawingBuffer (wsManager p)
    ++ drawingBuffer (canvas p).
Proof.
  intros Hon. unfold emitDrawing.
  destruct (drawingBuffer (canvas p)) as [|o l] eqn:Hb.
  - by rewrite Hb, app_nil_r.
  - simpl. destruct (foldl_sendDrawing_online now l _
                       (proj1 (sendDrawing_online now o _ Hon))) as [Hon' H].
    split; [done|]. split; [done|].
    rewrite H. destruct (sendDrawing_online now o _ Hon) as [_ H1].
    rewrite app_assoc, H1. by rewrite <- !app_assoc.
Qed.

(** X13. While the manager is connected the batching loses, repeats and
    reorders nothing: after any pointer event the operations transmitted so
    far, followed by those in the manager's buffer and those in the canvas
    buffer, are what they were before followed by the operation the event
    produced. *)
Theorem batching_conserves_operations drawLine e p :
  online (wsManager p) ->
  online (wsManager (on_pointer drawLine e p)) /\
  accounted_ops (on_pointer drawLine e p) = accounted_ops p ++ produced_op e p.
Proof.
  intros Hon. unfold accounted_ops.
  destruct e as [now x y|now x y|now]; simpl.
  - destruct (sendCursorMove_online now x y (wsManager p) Hon) as (Hon' & Ht & Hb).
    split; [done|]. rewrite Ht, Hb. by rewrite <- !app_assoc.
  - unfold draw. destruct (isDrawing (canvas p)) eqn:Hd.
    + cbn [emitMouseMove wsManager canvas].
      set (c2 := set_buffer _ _).
      case_decide.
      * destruct (emitDrawing_accounted now (mkPage c2 (wsManager p)) Hon)
          as (Hon1 & Hempty & Hacc).
        cbn [wsManager canvas] in *.
        destruct (sendCursorMove_online now x y _ Hon1) as (Hon2 & Ht & Hb).
        split; [done|]. rewrite Ht, Hb. cbn [set_lastSyncTime drawingBuffer].
        rewrite Hempty, app_nil_r, app_assoc, Hacc. subst c2. simpl.
        by rewrite <- !app_assoc.
      * cbn [wsManager canvas].
        destruct (sendCursorMove_online now x y _ Hon) as (Hon2 & Ht & Hb).
        split; [done|]. rewrite Ht, Hb. subst c2. simpl.
        by rewrite <- !app_assoc.
    + by rewrite app_nil_r.
  - unfold stopDrawing. destruct (isDrawing (canvas p)) eqn:Hd;
      [|by rewrite app_nil_r].
    cbn [wsManager canvas set_isDrawing drawingBuffer].
    destruct (drawingBuffer (canvas p)) as [|o l] eqn:Hb.
    + cbn [wsManager canvas]. split; [done|].
      assert (Hsave : forall c, drawingBuffer c = [] -> drawingBuffer (saveHistory c) = []).
      { intros c Hc. unfold saveHistory. by case_decide. }
      rewrite Hsave by done. by rewrite !app_nil_r.
    + destruct (emitDrawing_accounted now
                  (mkPage (set_isDrawing false (canvas p)) (wsManager p)) Hon)
        as (Hon1 & Hempty & Hacc).
      cbn [wsManager canvas set_isDrawing drawingBuffer] in *.
      rewrite Hb in Hacc. split; [done|].
      assert (Hsave : forall c, drawingBuffer c = [] -> drawingBuffer (saveHistory c) = []).
      { intros c Hc. unfold saveHistory. by case_decide. }
      rewrite Hsave by done. by rewrite !app_nil_r, app_assoc, Hacc, <- !app_assoc.
Qed.

Lemma batching_conserves_operations_witness :
  online (wsManager joined_page) /\
  accounted_ops (on_pointer no_ink (MouseDown 1000 5 5) joined_page)
  = accounted_ops joined_page
    ++ [mkOperation "start" 5 5 "brush" "#000000" 3 1000].
Proof.
  assert (Hon : online (wsManager joined_page)) by (split; reflexivity).
  split; [exact Hon|].
  exact (proj2 (batching_conserves_operations no_ink (MouseDown 1000 5 5)
                  joined_page Hon)).
Defined.

Lemma step_identity e m m' :
  step e m = Some m' ->
  userId m' = userId m /\ userName m' = userName m /\ userColor m' = userColor m /\
  wsDrawingBuffer m' = wsDrawingBuffer m.
Proof.
  destruct e; simpl.
  - destruct (ws m) as [[|n]|]; try done. intros [= <-]. unfold handleOpen.
    rewrite send_online by done. done.
  - intros H.
    assert (m' = handleClose (set_ws (Some 3%nat) m)) as ->.
    { destruct (ws m) as [[|[|[|n]]]|]; try done; by injection H. }
    unfold handleClose, attemptReconnect. by case_decide.
  - destruct (timers m); [done|]. by intros [= <-].
Qed.

Lemma steps_identity es : forall m0 m,
  steps es m0 = Some m ->
  userId m = userId m0 /\ userName m = userName m0 /\ userColor m = userColor m0.
Proof.
  induction es as [|e es IH]; intros m0 m Hsteps; simpl in Hsteps.
  - by injection Hsteps as <-.
  - destruct (step e m0) as [m1|] eqn:Hstep; [|done].
    destruct (step_identity e m0 m1 Hstep) as (H1 & H2 & H3 & _).
    destruct (IH m1 m Hsteps) as (H4 & H5 & H6). repeat split; congruence.
Qed.

(** X14. Identity across reconnects: whatever sequence of opens, closes
    and reconnect timers the manager goes through, it keeps the user id,
    name and colour of its constructor, and every successful open sends
    exactly one message, the [user_join] carrying them. *)
Theorem reconnect_reuses_identity uid name color now es m :
  steps es (new_WebSocketManager uid name color now) = Some m ->
  userId m = uid /\ userName m = name /\ userColor m = color /\
  (forall m', step SocketOpen m = Some m' ->
     outbox m' = outbox m ++ [user_join uid name color] /\ online m').
Proof.
  intros Hsteps. destruct (steps_identity es _ m Hsteps) as (H1 & H2 & H3).
  simpl in H1, H2, H3. repeat split; try done;
    simpl in H; destruct (ws m) as [[|n]|]; try done; injection H as <-;
    unfold handleOpen; rewrite send_online by done; simpl; congruence.
Qed.

Lemma reconnect_reuses_identity_witness :
  steps [SocketOpen; SocketClose; TimerFire]
        (new_WebSocketManager "u" "User-u" "#FF6B6B" 0) <> None /\
  forall m, steps [SocketOpen; SocketClose; TimerFire]
                  (new_WebSocketManager "u" "User-u" "#FF6B6B" 0) = Some m ->
            userId m = "u"%string.
Proof.
  split; [discriminate|]. intros m Hm.
  exact (proj1 (reconnect_reuses_identity "u" "User-u" "#FF6B6B" 0
                  [SocketOpen; SocketClose; TimerFire] m Hm)).
Defined.

End ClientTransmission.

(** ** The client's view of the other users *)

Section RemoteUsers.

Lemma jsmap_keys_set_In {V} (k k0 : string) (v : V) (m : list (string * V)) :
  In k0 (jsmap_keys (jsmap_set k v m)) <-> k0 = k \/ In k0 (jsmap_keys m).
Proof.
  unfold jsmap_keys. induction m as [|[k' v'] m IH]; simpl.
  - split; [intros [<-|[]]; by left | intros [->|[]]; by left].
  - destruct (decide (k' = k)) as [->|Hne]; simpl.
    + split; [intros [<-|?]; tauto | intros [->|[?|?]]; tauto].
    + rewrite IH. tauto.
Qed.

Lemma jsmap_keys_set_NoDup {V} (k : string) (v : V) (m : list (string * V)) :
  NoDup (jsmap_keys m) -> NoDup (jsmap_keys (jsmap_set k v m)).
Proof.
  induction m as [|[k' v'] m IH]; simpl.
  - intros _. apply NoDup_singleton.
  - intros Hnd. apply NoDup_cons in Hnd as [Hnotin Hnd].
    destruct (decide (k' = k)) as [->|Hne]; simpl.
    + by apply NoDup_cons.
    + apply NoDup_cons. split; [|by apply IH].
      rewrite list_elem_of_In, jsmap_keys_set_In.
      rewrite list_elem_of_In in Hnotin. intros [?|?]; [congruence | done].
Qed.

Lemma jsmap_keys_set_present {V} (k : string) (v v0 : V) (m : list (string * V)) :
  jsmap_get k m = Some v0 -> jsmap_keys (jsmap_set k v m) = jsmap_keys m.
Proof.
  unfold jsmap_keys. induction m as [|[k' v'] m IH]; simpl; [done|].
  destruct (decide (k' = k)) as [->|Hne]; simpl; [done|].
  intros H. by rewrite IH.
Qed.

Lemma add_listed_keys self us : forall acc uid,
  In uid (jsmap_keys (foldl (ClientView.add_listed self) acc us)) <->
  In uid (jsmap_keys acc) \/ (uid <> self /\ In uid (map ud_userId us)).
Proof.
  induction us as [|u us IH]; intros acc uid; simpl; [tauto|].
  rewrite IH. unfold ClientView.add_listed.
  destruct (decide (ud_userId u <> self)) as [Hne|Heq].
  - rewrite jsmap_keys_set_In. split.
    + intros [[->|?]|[? ?]]; tauto.
    + intros [?|[? [<-|?]]]; tauto.
  - apply dec_stable in Heq. split; [tauto|].
    intros [?|[Hs [Hu|?]]]; try tauto. congruence.
Qed.

Lemma add_listed_NoDup self us : forall acc,
  NoDup (jsmap_keys acc) ->
  NoDup (jsmap_keys (foldl (ClientView.add_listed self) acc us)).
Proof.
  induction us as [|u us IH]; intros acc Hnd; simpl; [done|].
  apply IH. unfold ClientView.add_listed. case_decide; [|done].
  by apply jsmap_keys_set_NoDup.
Qed.

(** X15. [handleUserList] rebuilds the registry of remote users from the
    message alone: it holds, once each, exactly the listed user ids other
    than the client's own, whatever it held before; a message without
    [users] empties it. *)
Theorem handleUserList_excludes_self self users v :
  let v' := ClientView.handleUserList self (Some users) v in
  jsmap_get self (ClientView.remoteUsers v') = None /\
  NoDup (jsmap_keys (ClientView.remoteUsers v')) /\
  (forall uid, In uid (jsmap_keys (ClientView.remoteUsers v')) <->
               uid <> self /\ In uid (map ud_userId users)) /\
  (forall v0, ClientView.remoteUsers (ClientView.handleUserList self (Some users) v0)
              = ClientView.remoteUsers v') /\
  ClientView.remoteUsers (ClientView.handleUserList self None v) = [].
Proof.
  simpl. split; [|split; [|split]].
  - apply jsmap_get_None_keys. rewrite add_listed_keys. simpl. tauto.
  - apply add_listed_NoDup. constructor.
  - intros uid. rewrite add_listed_keys. simpl. tauto.
  - done.
Qed.

Lemma handleUserList_excludes_self_witness :
  jsmap_get "a"
    (ClientView.remoteUsers
       (ClientView.handleUserList "a"
          (Some [mkUserData "a" "User-a" "#FF6B6B" 5;
                 mkUserData "b" "User-b" "#4ECDC4" 6])
          (ClientView.mkView [] [])))
  = None.
Proof.
  exact (proj1 (handleUserList_excludes_self "a"
           [mkUserData "a" "User-a" "#FF6B6B" 5; mkUserData "b" "User-b" "#4ECDC4" 6]
           (ClientView.mkView [] []))).
Defined.

(** X16. A user who joins and then leaves is forgotten: after
    [handleUserLeft] neither the registry entry nor the cursor element of
    that user remains, the other users keep theirs, and if the user was
    unknown before the join the registry is back to what it was. *)
Theorem join_then_leave_forgets uid name color v :
  let v' := ClientView.handleUserLeft uid (ClientView.handleUserJoined uid name color v) in
  jsmap_get uid (ClientView.remoteUsers v') = None /\
  jsmap_get uid (ClientView.cursorEls v') = None /\
  (forall uid', uid <> uid' ->
     jsmap_get uid' (ClientView.remoteUsers v')
       = jsmap_get uid' (ClientView.remoteUsers v) /\
     jsmap_get uid' (ClientView.cursorEls v')
       = jsmap_get uid' (ClientView.cursorEls v)) /\
  (jsmap_get uid (ClientView.remoteUsers v) = None ->
     ClientView.remoteUsers v' = ClientView.remoteUsers v).
Proof.
  simpl. split; [apply jsmap_get_delete_eq|]. split; [apply jsmap_get_delete_eq|].
  split.
  - intros uid' Hne. rewrite !jsmap_get_delete_ne by done.
    by rewrite jsmap_get_set_ne.
  - intros H. by apply jsmap_delete_set_fresh.
Qed.

Lemma join_then_leave_forgets_witness :
  ClientView.remoteUsers
    (ClientView.handleUserLeft "b"
       (ClientView.handleUserJoined "b" "User-b" "#4ECDC4"
          (ClientView.mkView [] [])))
  = [].
Proof.
  exact (proj2 (proj2 (proj2 (join_then_leave_forgets "b" "User-b" "#4ECDC4"
                                (ClientView.mkView [] []))))
               eq_refl).
Defined.

(** X17. [handleCursorMove] ignores the client's own cursor and cursors of
    users it does not know; for a known user it records the position, shows
    a cursor element at it, and changes neither who the users are nor their
    order, names and colours. *)
Theorem cursor_move_updates_known_user self uid x y v :
  let v' := ClientView.handleCursorMove self uid x y v in
  (uid = self -> v' = v) /\
  (jsmap_get uid (ClientView.remoteUsers v) = None -> v' = v) /\
  (forall user, uid <> self ->
     jsmap_get uid (ClientView.remoteUsers v) = Some user ->
     jsmap_get uid (ClientView.remoteUsers v')
       = Some (ClientView.mkRemoteUser (ClientView.ru_userId user)
                 (ClientView.ru_userName user) (ClientView.ru_userColor user) x y) /\
     jsmap_get uid (ClientView.cursorEls v') = Some (x, y) /\
     jsmap_keys (ClientView.remoteUsers v') = jsmap_keys (ClientView.remoteUsers v) /\
     (forall uid', uid <> uid' ->
        jsmap_get uid' (ClientView.remoteUsers v')
          = jsmap_get uid' (ClientView.remoteUsers v))).
Proof.
  unfold ClientView.handleCursorMove. split; [|split].
  - intros ->. by rewrite decide_True.
  - intros H. rewrite H. by case_decide.
  - intros user Hne Hget. rewrite decide_False, Hget by done. simpl.
    split; [apply jsmap_get_set_eq|]. split; [apply jsmap_get_set_eq|].
    split; [by eapply jsmap_keys_set_present|].
    intros uid' Hne'. by apply jsmap_get_set_ne.
Qed.

Lemma cursor_move_updates_known_user_witness :
  ClientView.handleCursorMove "a" "zed" 3 4
    (ClientView.handleUserJoined "b" "User-b" "#4ECDC4" (ClientView.mkView [] []))
  = ClientView.handleUserJoined "b" "User-b" "#4ECDC4" (ClientView.mkView [] []).
Proof.
  exact (proj1 (proj2 (cursor_move_updates_known_user "a" "zed" 3 4
           (ClientView.handleUserJoined "b" "User-b" "#4ECDC4"
              (ClientView.mkView [] [])))) eq_refl).
Defined.

End RemoteUsers.

(** ** History engine and gestures *)

Section HistoryEngine.





(** X19. Right after a commit there is nothing to redo: [redo] leaves the
    state [saveHistory] produced as it is. *)
Theorem redo_after_commit_is_noop c :
  (-1 <= historyStep c)%Z -> redo (saveHistory c) = saveHistory c.
Proof.
  intros Hs. unfold redo.
  assert (H : ~ (historyStep (saveHistory c)
                 < Z.of_nat (length (history (saveHistory c))) - 1)%Z).
  { unfold saveHistory, slice_to.
    rewrite (decide_False (P := (historyStep c + 1 < 0)%Z)) by lia.
    cbn [set_history history maxHistorySteps surface].
    pose proof (length_take (history c) (Z.to_nat (historyStep c + 1))) as Ht.
    case_decide as Hfull;
      cbn [set_history set_historyStep history historyStep].
    - rewrite length_app in Hfull. simpl in Hfull.
      destruct (take (Z.to_nat (historyStep c + 1)) (history c)) as [|s l];
        simpl in *; [lia|]. rewrite length_app. simpl. lia.
    - rewrite length_app. simpl. lia. }
  by rewrite decide_False.
Qed.

Lemma redo_after_commit_is_noop_witness :
  redo (new_CanvasDrawing [0; 0; 0; 0]%Z 0) = new_CanvasDrawing [0; 0; 0; 0]%Z 0.
Proof.
  exact (redo_after_commit_is_noop
           (mkCanvasDrawing [0; 0; 0; 0]%Z false "brush" "#000000" 3 [] 0 50 [] 0 50)
           ltac:(simpl; lia)).
Defined.



(** X21. Gestures.  A mouse move outside a stroke changes nothing and
    sends nothing, not even the cursor position; a press while the
    eyedropper is active starts no stroke; releasing ends the stroke,
    empties the canvas buffer and commits one snapshot of the surface; a
    second release (mouseup followed by mouseleave) does nothing more. *)
Theorem gesture_boundaries drawLine now now' x y p :
  (isDrawing (canvas p) = false -> draw drawLine now x y p = p) /\
  startDrawing now true x y p = p /\
  (isDrawing (canvas p) = false -> stopDrawing now p = p) /\
  stopDrawing now' (stopDrawing now p) = stopDrawing now p /\
  (isDrawing (canvas p) = true ->
     isDrawing (canvas (stopDrawing now p)) = false /\
     drawingBuffer (canvas (stopDrawing now p)) = [] /\
     history (canvas (stopDrawing now p)) = history (saveHistory (canvas p)) /\
     historyStep (canvas (stopDrawing now p)) = historyStep (saveHistory (canvas p)) /\
     surface (canvas (stopDrawing now p)) = surface (canvas p)).
Proof.
  assert (Hstop : isDrawing (canvas p) = true ->
     isDrawing (canvas (stopDrawing now p)) = false /\
     drawingBuffer (canvas (stopDrawing now p)) = [] /\
     history (canvas (stopDrawing now p)) = history (saveHistory (canvas p)) /\
     historyStep (canvas (stopDrawing now p)) = historyStep (saveHistory (canvas p)) /\
     surface (canvas (stopDrawing now p)) = surface (canvas p)).
  { intros Hd. unfold stopDrawing. rewrite Hd.
    cbn [canvas wsManager set_isDrawing drawingBuffer].
    assert (Hgen : forall cv : CanvasDrawing,
              history cv = history (canvas p) -> historyStep cv = historyStep (canvas p) ->
              surface cv = surface (canvas p) ->
              maxHistorySteps cv = maxHistorySteps (canvas p) ->
              isDrawing (saveHistory (set_buffer [] cv)) = isDrawing cv /\
              drawingBuffer (saveHistory (set_buffer [] cv)) = [] /\
              history (saveHistory (set_buffer [] cv)) = history (saveHistory (canvas p)) /\
              historyStep (saveHistory (set_buffer [] cv))
                = historyStep (saveHistory (canvas p)) /\
              surface (saveHistory (set_buffer [] cv)) = surface (canvas p)).
    { intros cv H1 H2 H3 H4. unfold saveHistory.
      cbn [set_buffer set_history set_historyStep history historyStep surface
           maxHistorySteps isDrawing drawingBuffer].
      rewrite H1, H2, H3, H4. by repeat case_decide. }
    destruct (drawingBuffer (canvas p)) as [|o l] eqn:Hb.
    - cbn [canvas]. by apply Hgen.
    - unfold emitDrawing. cbn [canvas wsManager set_isDrawing drawingBuffer].
      rewrite Hb. cbn [canvas]. by apply Hgen. }
  split; [|split; [|split; [|split]]]; try done.
  - intros Hd. unfold draw. by rewrite Hd.
  - intros Hd. unfold stopDrawing. by rewrite Hd.
  - destruct (isDrawing (canvas p)) eqn:Hd.
    + destruct (Hstop eq_refl) as (Hfalse & _).
      unfold stopDrawing at 1. by rewrite Hfalse.
    + unfold stopDrawing. by rewrite !Hd.
Qed.

Lemma gesture_boundaries_witness :
  draw no_ink 500 3 4 joined_page = joined_page.
Proof.
  exact (proj1 (gesture_boundaries no_ink 500 600 3 4 joined_page) eq_refl).
Defined.



End HistoryEngine.

(** ** Colour picker *)

Section ColourPicker.

Import ColorPicker.

Lemma upper_digit_hex n :
  (n < 16)%nat ->
  is_hex_digit (upper_digit n) = true /\ hex_value (upper_digit n) = n /\
  upper_ascii (upper_digit n) = upper_digit n.
Proof.
  intros Hn. do 16 (destruct n as [|n]; [by vm_compute|]). lia.
Qed.

Lemma hex_digit_upper c :
  is_hex_digit c = true ->
  upper_ascii c = upper_digit (hex_value c) /\ (hex_value c < 16)%nat /\
  is_hex_digit (upper_ascii c) = true /\ hex_value (upper_ascii c) = hex_value c.
Proof.
  destruct c as [[] [] [] [] [] [] [] []]; vm_compute; intros H;
    try discriminate H; repeat split; try reflexivity; lia.
Qed.

Lemma hex_byte_ok_all x : (x < 256)%nat -> hex_byte_ok x = true.
Proof.
  intros Hx.
  assert (Hall : forallb hex_byte_ok (seq 0 256) = true) by (vm_compute; reflexivity).
  rewrite forallb_forall in Hall. apply Hall. apply in_seq. lia.
Qed.

Lemma byte_prints_two_digits x :
  (x < 256)%nat ->
  toUpperCase (pad_hex x)
  = String (upper_digit (x / 16)) (String (upper_digit (x mod 16)) EmptyString).
Proof.
  intros Hx. pose proof (hex_byte_ok_all x Hx) as H. unfold hex_byte_ok in H.
  destruct (toUpperCase (pad_hex x)) as [|c1 [|c2 [|c3 rest]]]; try done.
  apply andb_true_iff in H as [H1 H2].
  apply Ascii.eqb_eq in H1, H2. by subst.
Qed.

Lemma toUpperCase_app s1 s2 :
  toUpperCase (s1 +:+ s2) = (toUpperCase s1 +:+ toUpperCase s2)%string.
Proof. induction s1 as [|c s1 IH]; simpl; [done|]. by rewrite IH. Qed.

Lemma rgbToHex_digits r g b :
  (r < 256)%nat -> (g < 256)%nat -> (b < 256)%nat ->
  rgbToHex r g b
  = String "#"
      (String (upper_digit (r / 16)) (String (upper_digit (r mod 16))
      (String (upper_digit (g / 16)) (String (upper_digit (g mod 16))
      (String (upper_digit (b / 16)) (String (upper_digit (b mod 16))
       EmptyString)))))).
Proof.
  intros Hr Hg Hb. unfold rgbToHex. rewrite !toUpperCase_app.
  by rewrite !byte_prints_two_digits.
Qed.

Lemma rgbToHex_reads_back r g b :
  (r < 256)%nat -> (g < 256)%nat -> (b < 256)%nat ->
  hexToRgb (rgbToHex r g b) = Some (r, g, b) /\
  valid_hex (rgbToHex r g b) = true /\
  toUpperCase (rgbToHex r g b) = rgbToHex r g b /\
  String.length (rgbToHex r g b) = 7%nat.
Proof.
  intros Hr Hg Hb. rewrite rgbToHex_digits by done.
  assert (Hd : forall x, (x < 256)%nat ->
            (x / 16 < 16)%nat /\ (x mod 16 < 16)%nat /\
            (16 * (x / 16) + x mod 16 = x)%nat).
  { intros x Hx. split; [apply Nat.Div0.div_lt_upper_bound; lia|].
    split; [apply Nat.mod_upper_bound; lia|].
    symmetry. apply Nat.div_mod_eq. }
  destruct (Hd r Hr) as (Hr1 & Hr2 & Hr3), (Hd g Hg) as (Hg1 & Hg2 & Hg3),
    (Hd b Hb) as (Hb1 & Hb2 & Hb3).
  destruct (upper_digit_hex _ Hr1) as (Ha1 & Ha2 & Ha3),
    (upper_digit_hex _ Hr2) as (Ha4 & Ha5 & Ha6),
    (upper_digit_hex _ Hg1) as (Hc1 & Hc2 & Hc3),
    (upper_digit_hex _ Hg2) as (Hc4 & Hc5 & Hc6),
    (upper_digit_hex _ Hb1) as (He1 & He2 & He3),
    (upper_digit_hex _ Hb2) as (He4 & He5 & He6).
  cbn [hexToRgb valid_hex forallb toUpperCase String.length].
  rewrite Ha1, Ha4, Hc1, Hc4, He1, He4, Ha2, Ha5, Hc2, Hc5, He2, He5,
    Ha3, Ha6, Hc3, Hc6, He3, He6, Hr3, Hg3, Hb3. done.
Qed.

(** X23. Colour round trip: for red, green and blue between 0 and 255
    [rgbToHex] gives [#] and six upper-case hexadecimal digits, a string
    that [setColor] accepts as it is, and [hexToRgb] reads the three
    numbers back from it. *)
Theorem rgb_hex_round_trip r g b :
  (r < 256)%nat -> (g < 256)%nat -> (b < 256)%nat ->
  hexToRgb (rgbToHex r g b) = Some (r, g, b) /\
  valid_hex (rgbToHex r g b) = true /\
  toUpperCase (rgbToHex r g b) = rgbToHex r g b /\
  String.length (rgbToHex r g b) = 7%nat.
Proof.
  intros Hr Hg Hb.
  destruct (rgbToHex_reads_back r g b Hr Hg Hb) as (Hback & Hvalid & Hupper & Hlen).
  split; [exact Hback|]. split; [exact Hvalid|]. split; [exact Hupper | exact Hlen].
Qed.

Lemma rgb_hex_round_trip_witness :
  rgbToHex 255 107 5 = "#FF6B05"%string /\
  hexToRgb (rgbToHex 255 107 5) = Some (255, 107, 5)%nat.
Proof.
  split; [reflexivity|].
  exact (proj1 (rgb_hex_round_trip 255 107 5 ltac:(lia) ltac:(lia) ltac:(lia))).
Defined.

Lemma valid_hex_shape hex :
  valid_hex hex = true ->
  exists a b c d e f,
    hex = String "#" (String a (String b (String c (String d (String e
            (String f EmptyString)))))) /\
    is_hex_digit a = true /\ is_hex_digit b = true /\ is_hex_digit c = true /\
    is_hex_digit d = true /\ is_hex_digit e = true /\ is_hex_digit f = true.
Proof.
  destruct hex as [|h rest0]; [discriminate|].
  destruct h as [[] [] [] [] [] [] [] []];
    try (intros H; simpl in H; discriminate H).
  destruct rest0 as [|a [|b [|c [|d [|e [|f [|x rest]]]]]]];
    try (intros H; simpl in H; discriminate H).
  cbn [valid_hex forallb]. intros H.
  repeat (apply andb_true_iff in H as [? H]).
  exists a, b, c, d, e, f. by repeat split.
Qed.

Lemma two_digits_value x y :
  (x < 16)%nat -> (y < 16)%nat ->
  (16 * x + y < 256)%nat /\ ((16 * x + y) / 16 = x)%nat /\
  ((16 * x + y) mod 16 = y)%nat.
Proof.
  intros Hx Hy. split; [lia|]. split.
  - symmetry. by apply (Nat.div_unique _ 16 x y).
  - symmetry. by apply (Nat.mod_unique _ 16 x y).
Qed.

Lemma valid_hex_toUpperCase hex :
  valid_hex hex = true -> valid_hex (toUpperCase hex) = true.
Proof.
  intros Hv.
  destruct (valid_hex_shape hex Hv)
    as (a & b & c & d & e & f & -> & Ha & Hb & Hc & Hd & He & Hf).
  cbn [toUpperCase]. change (upper_ascii "#") with "#"%char.
  cbn [valid_hex forallb].
  destruct (hex_digit_upper a Ha) as (_ & _ & -> & _),
    (hex_digit_upper b Hb) as (_ & _ & -> & _),
    (hex_digit_upper c Hc) as (_ & _ & -> & _),
    (hex_digit_upper d Hd) as (_ & _ & -> & _),
    (hex_digit_upper e He) as (_ & _ & -> & _),
    (hex_digit_upper f Hf) as (_ & _ & -> & _).
  done.
Qed.

(** X24. The other way round: a string that [setColor] accepts is read by
    [hexToRgb] as three numbers between 0 and 255, upper or lower case
    alike, and [rgbToHex] of those numbers is the string in upper case. *)
Theorem hex_rgb_round_trip hex :
  valid_hex hex = true ->
  exists r g b,
    hexToRgb hex = Some (r, g, b) /\
    (r < 256)%nat /\ (g < 256)%nat /\ (b < 256)%nat /\
    hexToRgb (toUpperCase hex) = Some (r, g, b) /\
    rgbToHex r g b = toUpperCase hex /\
    valid_hex (toUpperCase hex) = true.
Proof.
  intros Hv.
  destruct (valid_hex_shape hex Hv)
    as (a & b & c & d & e & f & -> & Ha & Hb & Hc & Hd & He & Hf).
  destruct (hex_digit_upper a Ha) as (Ua & La & Va & Wa),
    (hex_digit_upper b Hb) as (Ub & Lb & Vb & Wb),
    (hex_digit_upper c Hc) as (Uc & Lc & Vc & Wc),
    (hex_digit_upper d Hd) as (Ud & Ld & Vd & Wd),
    (hex_digit_upper e He) as (Ue & Le & Ve & We),
    (hex_digit_upper f Hf) as (Uf & Lf & Vf & Wf).
  destruct (two_digits_value _ _ La Lb) as (R1 & R2 & R3),
    (two_digits_value _ _ Lc Ld) as (G1 & G2 & G3),
    (two_digits_value _ _ Le Lf) as (B1 & B2 & B3).
  exists (16 * hex_value a + hex_value b)%nat,
         (16 * hex_value c + hex_value d)%nat,
         (16 * hex_value e + hex_value f)%nat.
  split; [|split; [done|split; [done|split; [done|split; [|split]]]]].
  - cbn [hexToRgb forallb]. by rewrite Ha, Hb, Hc, Hd, He, Hf.
  - cbn [hexToRgb toUpperCase forallb].
    change (upper_ascii "#") with "#"%char. cbn [hexToRgb forallb].
    by rewrite Va, Vb, Vc, Vd, Ve, Vf, Wa, Wb, Wc, Wd, We, Wf.
  - rewrite rgbToHex_digits by done.
    rewrite R2, R3, G2, G3, B2, B3. cbn [toUpperCase].
    change (upper_ascii "#") with "#"%char.
    by rewrite Ua, Ub, Uc, Ud, Ue, Uf.
  - cbn [toUpperCase]. change (upper_ascii "#") with "#"%char.
    cbn [valid_hex forallb]. by rewrite Va, Vb, Vc, Vd, Ve, Vf.
Qed.

Lemma hex_rgb_round_trip_witness :
  exists r g b,
    hexToRgb "#ff6b05" = Some (r, g, b) /\
    (r < 256)%nat /\ (g < 256)%nat /\ (b < 256)%nat /\
    hexToRgb (toUpperCase "#ff6b05") = Some (r, g, b) /\
    rgbToHex r g b = toUpperCase "#ff6b05" /\
    valid_hex (toUpperCase "#ff6b05") = true.
Proof. exact (hex_rgb_round_trip "#ff6b05" eq_refl). Defined.

Lemma filter_other_NoDup (hex : string) (h : list string) :
  NoDup h -> NoDup (List.filter (fun c => negb (bool_decide (c = hex))) h).
Proof.
  induction 1 as [|x l Hx Hl IH]; simpl; [constructor|].
  destruct (negb (bool_decide (x = hex))); [|done].
  constructor; [|done]. rewrite list_elem_of_In, filter_In.
  rewrite list_elem_of_In in Hx. tauto.
Qed.

Lemma addToHistory_head hex p :
  cp_maxHistorySize p <> 0%nat ->
  head (cp_colorHistory (addToHistory hex p)) = Some hex.
Proof.
  intros Hmax. unfold addToHistory. cbn [cp_colorHistory].
  case_decide; [|done]. by destruct (cp_maxHistorySize p).
Qed.

Lemma setColor_valid hex pc :
  valid_hex hex = true ->
  setColor hex pc
  = (addToHistory (toUpperCase hex)
       (mkPicker (toUpperCase hex) (cp_colorHistory (fst pc))
          (cp_maxHistorySize (fst pc)) (cp_isEyedropperActive (fst pc))),
     canvas_setColor (toUpperCase hex) (snd pc)).
Proof. intros Hv. unfold setColor. by rewrite Hv. Qed.

(** X25. The colour history is a most-recently-used list: after
    [addToHistory] it never holds more than [maxHistorySize] colours, the
    colour just used comes first and occurs nowhere else, every other entry
    was there before, and a history without repetitions stays without. *)
Theorem addToHistory_most_recent_first hex p :
  let h' := cp_colorHistory (addToHistory hex p) in
  (length h' <= cp_maxHistorySize p)%nat /\
  (cp_maxHistorySize p <> 0%nat -> head h' = Some hex) /\
  ~ In hex (tail h') /\
  (forall c, In c h' -> c = hex \/ In c (cp_colorHistory p)) /\
  (NoDup (cp_colorHistory p) -> NoDup h') /\
  cp_currentColor (addToHistory hex p) = cp_currentColor p.
Proof.
  unfold addToHistory. cbn [cp_colorHistory cp_currentColor].
  set (rest := List.filter (fun c => negb (bool_decide (c = hex))) (cp_colorHistory p)).
  assert (Hrest : ~ In hex rest).
  { subst rest. rewrite filter_In. intros [_ H].
    by rewrite bool_decide_eq_true_2 in H. }
  assert (Hsub : forall c, In c rest -> In c (cp_colorHistory p)).
  { subst rest. intros c Hc. by apply filter_In in Hc as [? _]. }
  assert (Hnd : NoDup (cp_colorHistory p) -> NoDup (hex :: rest)).
  { intros H. constructor; [by rewrite list_elem_of_In|].
    by apply filter_other_NoDup. }
  case_decide as Hfull.
  - destruct (cp_maxHistorySize p) as [|n] eqn:Hmax.
    + simpl. repeat split; try done; [tauto | intros _; constructor].
    + cbn [take head tail]. rewrite length_cons, length_take.
      split; [lia|]. split; [done|]. split; [|split; [|split; [|done]]].
      * intros Hin. apply Hrest. apply list_elem_of_In.
        apply list_elem_of_In in Hin.
        eapply elem_of_sublist; [exact Hin | apply sublist_take].
      * intros c [<-|Hin]; [by left|]. right. apply Hsub.
        apply list_elem_of_In. apply list_elem_of_In in Hin.
        eapply elem_of_sublist; [exact Hin | apply sublist_take].
      * intros H. specialize (Hnd H). apply NoDup_cons in Hnd as [Hx Hl].
        apply NoDup_cons. split; [|eapply sublist_NoDup; [exact Hl | apply sublist_take]].
        intros Hin. apply Hx.
        eapply elem_of_sublist; [exact Hin | apply sublist_take].
  - cbn [head tail]. split; [lia|]. split; [done|]. split; [done|].
    split; [|split; [done|done]].
    intros c [<-|Hin]; [by left | right; by apply Hsub].
Qed.

Lemma addToHistory_most_recent_first_witness :
  cp_colorHistory (addToHistory "#FF0000" (new_Picker ["#00FF00"; "#FF0000"; "#0000FF"]))
  = ["#FF0000"; "#00FF00"; "#0000FF"]%string /\
  head (cp_colorHistory
          (addToHistory "#FF0000" (new_Picker ["#00FF00"; "#FF0000"; "#0000FF"])))
  = Some "#FF0000"%string.
Proof.
  split; [reflexivity|].
  exact (proj1 (proj2 (addToHistory_most_recent_first "#FF0000"
                  (new_Picker ["#00FF00"; "#FF0000"; "#0000FF"])))
               ltac:(discriminate)).
Defined.

(** X26. [setColor] rejects what is not [#] and six hexadecimal digits and
    then changes nothing; otherwise the picker and the canvas both take the
    colour in upper case, it becomes the first entry of the history, and
    nothing else of the canvas changes.  So a picker and a canvas that
    agree on a valid colour keep agreeing on a valid colour. *)
Theorem setColor_validates hex pc :
  (valid_hex hex = false -> setColor hex pc = pc) /\
  (valid_hex hex = true ->
     cp_currentColor (fst (setColor hex pc)) = toUpperCase hex /\
     currentColor (snd (setColor hex pc)) = toUpperCase hex /\
     (cp_maxHistorySize (fst pc) <> 0%nat ->
        head (cp_colorHistory (fst (setColor hex pc))) = Some (toUpperCase hex)) /\
     history (snd (setColor hex pc)) = history (snd pc) /\
     surface (snd (setColor hex pc)) = surface (snd pc) /\
     strokeWidth (snd (setColor hex pc)) = strokeWidth (snd pc)) /\
  (cp_currentColor (fst pc) = currentColor (snd pc) ->
   valid_hex (currentColor (snd pc)) = true ->
     cp_currentColor (fst (setColor hex pc)) = currentColor (snd (setColor hex pc)) /\
     valid_hex (currentColor (snd (setColor hex pc))) = true).
Proof.
  split; [|split].
  - intros Hv. unfold setColor. by rewrite Hv.
  - intros Hv. rewrite (setColor_valid hex pc Hv). cbn [fst snd].
    split; [done|]. split; [done|]. split; [|done].
    intros Hmax. by apply addToHistory_head.
  - intros Hagree Hvalid. destruct (valid_hex hex) eqn:Hv.
    + rewrite (setColor_valid hex pc Hv). cbn [fst snd]. split; [done|].
      by apply valid_hex_toUpperCase.
    + unfold setColor. by rewrite Hv.
Qed.

Lemma setColor_validates_witness :
  setColor "red" (new_Picker [], new_CanvasDrawing [0; 0; 0; 0]%Z 0)
  = (new_Picker [], new_CanvasDrawing [0; 0; 0; 0]%Z 0) /\
  currentColor (snd (setColor "#ff6b05"
                       (new_Picker [], new_CanvasDrawing [0; 0; 0; 0]%Z 0)))
  = "#FF6B05"%string.
Proof.
  split.
  - exact (proj1 (setColor_validates "red"
                    (new_Picker [], new_CanvasDrawing [0; 0; 0; 0]%Z 0)) eq_refl).
  - exact (proj1 (proj2 (proj1 (proj2 (setColor_validates "#ff6b05"
                    (new_Picker [], new_CanvasDrawing [0; 0; 0; 0]%Z 0))) eq_refl))).
Defined.

(** X27. The eyedropper always takes the pixel it reads: for a pixel of
    three bytes [pickColor] leaves picker and canvas on the pixel's colour
    as [#RRGGBB], puts it first in the history, and switches the eyedropper
    off. *)
Theorem pickColor_takes_pixel r g b pc :
  (r < 256)%nat -> (g < 256)%nat -> (b < 256)%nat ->
  cp_currentColor (fst (pickColor r g b pc)) = rgbToHex r g b /\
  currentColor (snd (pickColor r g b pc)) = rgbToHex r g b /\
  cp_isEyedropperActive (fst (pickColor r g b pc)) = false /\
  hexToRgb (currentColor (snd (pickColor r g b pc))) = Some (r, g, b) /\
  (cp_maxHistorySize (fst pc) <> 0%nat ->
     head (cp_colorHistory (fst (pickColor r g b pc))) = Some (rgbToHex r g b)).
Proof.
  intros Hr Hg Hb.
  destruct (rgbToHex_reads_back r g b Hr Hg Hb) as (Hback & Hvalid & Hupper & _).
  unfold pickColor. rewrite (setColor_valid _ pc Hvalid), Hupper.
  cbn [fst snd cp_currentColor cp_colorHistory cp_isEyedropperActive].
  repeat split; try done.
  intros Hmax. by apply addToHistory_head.
Qed.

Lemma pickColor_takes_pixel_witness :
  currentColor (snd (pickColor 255 107 5
                       (mkPicker "#000000" [] 20 true,
                        new_CanvasDrawing [0; 0; 0; 0]%Z 0)))
  = "#FF6B05"%string.
Proof.
  exact (proj1 (proj2 (pickColor_takes_pixel 255 107 5
                  (mkPicker "#000000" [] 20 true,
                   new_CanvasDrawing [0; 0; 0; 0]%Z 0)
                  ltac:(lia) ltac:(lia) ltac:(lia)))).
Defined.

End ColourPicker.

(** ** Reachable server states *)

Section ReachableServer.

Lemma with_room_Forall (P : string * Room -> Prop) room now f st :
  (forall r, P (room, r) -> P (room, f r)) ->
  P (room, new_Room room now) ->
  Forall P (rooms st) -> Forall P (rooms (fst (with_room room now f st))).
Proof.
  intros Hf Hnew H. unfold with_room, getOrCreateRoom.
  destruct (jsmap_get room (rooms st)) as [r|] eqn:Hr; simpl.
  - apply jsmap_set_Forall; [|done]. apply Hf.
    by apply (jsmap_get_Forall P room r (rooms st)).
  - apply jsmap_set_Forall; [by apply Hf|]. by apply jsmap_set_Forall.
Qed.

Lemma addDrawingOperation_keeps_bound now ops (k : string) r :
  maxHistorySize r = 1000%nat /\ (length (drawingHistory r) <= 1000)%nat ->
  maxHistorySize (addDrawingOperation now ops r) = 1000%nat /\
  (length (drawingHistory (addDrawingOperation now ops r)) <= 1000)%nat.
Proof.
  intros [Hmax Hlen]. rewrite addDrawingOperation_maxHistorySize. split; [done|].
  pose proof (addDrawingOperation_bounded now ops r) as Hb.
  rewrite Hmax in Hb. by apply Hb.
Qed.

Lemma deliver_logs_bounded e st : logs_bounded st -> logs_bounded (deliver e st).
Proof.
  unfold logs_bounded.
  set (P := fun kr : string * Room =>
              maxHistorySize (snd kr) = 1000%nat /\
              (length (drawingHistory (snd kr)) <= 1000)%nat).
  intros H.
  assert (Hnew : forall room now, P (room, new_Room room now)).
  { intros. unfold P. simpl. split; [done | lia]. }
  assert (Hkeep : forall room now (f : Room -> Room) s,
            (forall r, maxHistorySize (f r) = maxHistorySize r /\
                       drawingHistory (f r) = drawingHistory r) ->
            Forall P (rooms s) -> Forall P (rooms (fst (with_room room now f s)))).
  { intros room now f s Hf Hs. apply with_room_Forall; [|done|done].
    intros r [H1 H2]. unfold P. simpl.
    destruct (Hf r) as (-> & ->). done. }
  destruct e as [|i m now stamps|i now]; cbn [deliver]; [done| |].
  - destruct (is_open i st); [|done].
    destruct m as [uid name color|ops ts|x y ts| | |]; simpl; try done.
    + unfold handleUserJoin. destruct (conns st !! i) as [c|]; [|done].
      pose proof (Hkeep (cl_roomId c) now
                    (addUser uid (mkUserData uid name color now)) st
                    ltac:(done) H) as Hw.
      destruct (with_room (cl_roomId c) now _ st) as [st1 r1].
      by case_decide.
    + unfold handleDrawing. destruct (conns st !! i) as [c|]; [|done].
      destruct (cl_userId c) as [u|]; [|done].
      destruct (truthy (Some u)); [|done].
      destruct ops as [ops|].
      * pose proof (with_room_Forall P (cl_roomId c) now
                      (addDrawingOperation stamps ops) st
                      (addDrawingOperation_keeps_bound stamps ops (cl_roomId c))
                      (Hnew _ _) H) as Hw.
        by destruct (with_room (cl_roomId c) now _ st) as [st1 r1].
      * by apply Hkeep.
    + unfold handleCursorMove. destruct (conns st !! i) as [c|]; [|done].
      destruct (cl_userId c) as [u|]; [|done]. by destruct (truthy (Some u)).
    + unfold handleCanvasSync. destruct (conns st !! i) as [c|]; [|done].
      pose proof (Hkeep (cl_roomId c) now (fun r => r) st ltac:(done) H) as Hw.
      by destruct (with_room (cl_roomId c) now _ st) as [st1 r1].
  - destruct (is_open i st); [|done].
    unfold on_close. destruct (conns (close_socket i st) !! i) as [c|]; [|done].
    destruct (cl_userId c) as [u|]; [|done].
    destruct (truthy (Some u)); [|done].
    pose proof (Hkeep (cl_roomId c) now (removeUser u)
                  (close_socket i st) ltac:(done) H) as Hw.
    by destruct (with_room (cl_roomId c) now _ (close_socket i st)) as [st1 r1].
Qed.

(** X28. Whatever arrives, in whatever order, from however many
    connections, no room of the server ever holds more than 1000 logged
    operations. *)
Theorem server_logs_stay_bounded es room :
  (length (room_log room (run es init)) <= 1000)%nat.
Proof.
  assert (H : logs_bounded (run es init)).
  { assert (Hgen : forall st, logs_bounded st -> logs_bounded (run es st)).
    { induction es as [|e es IH]; intros st Hst; [done|].
      apply IH. by apply deliver_logs_bounded. }
    apply Hgen. constructor. }
  unfold room_log. destruct (jsmap_get room (rooms (run es init))) as [r|] eqn:Hr;
    [|simpl; lia].
  by destruct (jsmap_get_Forall _ room r _ H Hr) as [_ Hlen].
Qed.

(** X29. The cursor outline is never smaller than 8 nor larger than 64
    pixels, and between those limits it is twice the stroke width. *)
Theorem cursorSize_clamped w :
  (8 <= cursorSize w <= 64)%Z /\
  ((4 <= w <= 32)%Z -> cursorSize w = (2 * w)%Z) /\
  ((w <= 4)%Z -> cursorSize w = 8%Z) /\
  ((32 <= w)%Z -> cursorSize w = 64%Z).
Proof. unfold cursorSize. repeat split; lia. Qed.

Lemma cursorSize_clamped_witness : cursorSize 3 = 8%Z.
Proof. exact (proj1 (proj2 (proj2 (cursorSize_clamped 3))) ltac:(lia)). Defined.

End ReachableServer.
